(** * Chem563, 03_Ensembles: the structure splitter [split_pdb] and the
    simulation driver of the molecular-dynamics tutorial notebook.

    The notebook is Python.  Text is modelled as [string], one [ascii] per
    character (the PDB format is 7-bit text); the dictionary [groups] as an
    association list in insertion order, which is the iteration order of a
    Python dict; the file system as a finite map from paths to contents; and
    the effects of [open] and [write] as a state-and-exception monad over a
    [world] that also records the trace of file operations.

    The file system is flat: every string is a path, opening an existing
    file for reading and opening any file for writing succeed, and text is
    written as it is (the line separator of the platform is LF). *)

From Stdlib Require Import Ascii String.
From stdpp Require Import gmap strings list fin_maps sorting.

Local Open Scope string_scope.
Local Open Scope list_scope.
Local Open Scope nat_scope.

#[local] Set Warnings "-clear-no-such-hyp".

(** ** Python string operations used by the notebook *)

Module Py.

(** [s[:n]] for a non-negative [n]. *)
Fixpoint upto (n : nat) (s : string) : string :=
  match n, s with
  | S n', String c s' => String c (upto n' s')
  | _, _ => ""
  end.

(** [s[n:]] for a non-negative [n]. *)
Fixpoint from (n : nat) (s : string) : string :=
  match n, s with
  | S n', String _ s' => from n' s'
  | _, _ => s
  end.

(** [s[:-n]]: everything but the last [n] characters (empty when the string
    is shorter than [n]). *)
Definition drop_last (n : nat) (s : string) : string :=
  upto (String.length s - n) s.

(** [s.startswith(p)]. *)
Definition startswith (s p : string) : bool := String.prefix p s.

(** [c.lower()] on one character of 7-bit text. *)
Definition lower (c : ascii) : ascii :=
  let n := nat_of_ascii c in
  if ((65 <=? n) && (n <=? 90))%nat then ascii_of_nat (n + 32) else c.

(** A one-character string, the value of [line[pos]]. *)
Definition chr (c : ascii) : string := String c "".

Definition LF : ascii := "010"%char.
Definition CR : ascii := "013"%char.

(** Text-mode reading with the default [newline=None]: the three line endings
    CR LF, CR and LF all reach the program as LF. *)
Fixpoint universal_newlines (s : string) : string :=
  match s with
  | "" => ""
  | String c s' =>
      if Ascii.eqb c CR then
        match s' with
        | String c' s'' =>
            if Ascii.eqb c' LF then String LF (universal_newlines s'')
            else String LF (universal_newlines s')
        | "" => String LF ""
        end
      else String c (universal_newlines s')
  end.

(** The lines a text file object yields when iterated: each ends with its
    LF, except possibly the last. *)
Fixpoint splitlines (s : string) : list string :=
  match s with
  | "" => []
  | String c s' =>
      if Ascii.eqb c LF then chr c :: splitlines s'
      else match splitlines s' with
           | [] => [chr c]
           | l :: ls => String c l :: ls
           end
  end.

Definition readlines (raw : string) : list string :=
  splitlines (universal_newlines raw).

(** Tuples [(counter, line)] compare lexicographically; [list.sort] orders by
    this comparison. *)
Definition tuple_leb (a b : nat * string) : bool :=
  if (a.1 <? b.1)%nat then true
  else if (a.1 =? b.1)%nat then String.leb a.2 b.2
  else false.

Definition tuple_le (a b : nat * string) : Prop := tuple_leb a b = true.

#[export] Instance tuple_le_dec : RelDecision tuple_le.
Proof. intros a b. unfold tuple_le. apply bool_eq_dec. Defined.

(** [l.sort()].  The comparison is a total order on tuples, so the sorted
    permutation is unique and any sorting algorithm yields it. *)
Definition sort (l : list (nat * string)) : list (nat * string) :=
  merge_sort tuple_le l.

End Py.

(** ** The file system, exceptions and the effect monad *)

Inductive exn : Type :=
  | FileNotFoundError
  | IndexError
  | KeyError.

Inductive event : Type :=
  | OpenRead (path : string)
  | OpenWrite (path : string)
  | Write (path : string) (data : string).

Record world : Type := World {
  files : gmap string string;
  trace : list event
}.

Definition io (A : Type) : Type := world -> (exn + A) * world.

Definition raise {A} (e : exn) : io A := fun w => (inl e, w).

#[export] Instance io_ret : MRet io := fun A a w => (inr a, w).

#[export] Instance io_bind : MBind io := fun A B k m w =>
  match m w with
  | (inl e, w') => (inl e, w')
  | (inr a, w') => k a w'
  end.

Definition log (e : event) (w : world) : world :=
  World (files w) (trace w ++ [e]).

(** [open(path)] followed by reading the whole text. *)
Definition open_read (path : string) : io string :=
  fun w => match files w !! path with
           | None => (inl FileNotFoundError, w)
           | Some raw => (inr raw, log (OpenRead path) w)
           end.

(** [open(path, "w")]: the file is created, or truncated when it exists. *)
Definition open_write (path : string) : io unit :=
  fun w => (inr tt, World (<[path := ""]> (files w)) (trace w ++ [OpenWrite path])).

(** [f.write(data)] on the file opened at [path]. *)
Definition write (path data : string) : io unit :=
  fun w => (inr tt, World (alter (fun old => old +:+ data) path (files w))
                          (trace w ++ [Write path data])).

(** ** [split_pdb] *)

Definition pos : nat := 16.

(** The dictionary [groups]: marker character to list of [(counter, line)],
    in insertion order. *)
Definition groups_t : Type := list (ascii * list (nat * string)).

(** [groups.setdefault(state, []).append(item)]. *)
Fixpoint setdefault_append (state : ascii) (item : nat * string)
    (groups : groups_t) : groups_t :=
  match groups with
  | [] => [(state, [item])]
  | (k, v) :: rest =>
      if decide (k = state) then (k, v ++ [item]) :: rest
      else (k, v) :: setdefault_append state item rest
  end.

(** [groups[key]]; [None] stands for the KeyError. *)
Fixpoint getitem (key : ascii) (groups : groups_t) : option (list (nat * string)) :=
  match groups with
  | [] => None
  | (k, v) :: rest => if decide (k = key) then Some v else getitem key rest
  end.

(** [line[:pos] + " " + line[pos+1:]]. *)
Definition blank_marker (line : string) : string :=
  Py.upto pos line +:+ " " +:+ Py.from (pos + 1) line.

(** The loop [for line in f] with its two accumulators. *)
Fixpoint read_loop (lines : list string) (groups : groups_t) (counter : nat)
    : exn + (groups_t * nat) :=
  match lines with
  | [] => inr (groups, counter)
  | line :: rest =>
      if Py.startswith line "ATOM" then
        match String.get pos line with
        | None => inl IndexError
        | Some state =>
            let line := blank_marker line in
            read_loop rest (setdefault_append state (counter, line) groups)
                      (S counter)
        end
      else read_loop rest groups counter
  end.

(** ["{}_{}.pdb".format(fn_pdb[:-4], key.lower())]. *)
Definition out_path (fn_pdb : string) (key : ascii) : string :=
  Py.drop_last 4 fn_pdb +:+ "_" +:+ Py.chr (Py.lower key) +:+ ".pdb".

(** [for counter, line in lines_both: f.write(line)]. *)
Fixpoint write_lines (path : string) (lines_both : list (nat * string)) : io unit :=
  match lines_both with
  | [] => mret tt
  | (_, line) :: rest => write path line ;; write_lines path rest
  end.

(** The loop [for key, lines_group in groups.items()]. *)
Fixpoint write_loop (fn_pdb : string) (groups : groups_t) (items : groups_t)
    : io unit :=
  match items with
  | [] => mret tt
  | (key, lines_group) :: rest =>
      if decide (key = " "%char) then write_loop fn_pdb groups rest
      else
        match getitem " "%char groups with
        | None => raise KeyError
        | Some default =>
            let lines_both := Py.sort (lines_group ++ default) in
            let path := out_path fn_pdb key in
            open_write path ;;
            write_lines path lines_both ;;
            write_loop fn_pdb groups rest
        end
  end.

(** An exception of the pure first loop, raised in the monad. *)
Definition lift {A} (r : exn + A) : io A :=
  match r with
  | inl e => raise e
  | inr a => mret a
  end.

(** The function of the notebook: the first loop runs over the lines of the
    input inside its [with] block, the second over [groups.items()], looking
    the default group up in the same [groups]. *)
Definition split_pdb (fn_pdb : string) : io unit :=
  raw ← open_read fn_pdb;
  gc ← lift (read_loop (Py.readlines raw) [] 0);
  write_loop fn_pdb gc.1 gc.1.

(** ** Vocabulary of the specification *)

(** A line "flagged as atomic coordinate record". *)
Definition is_atom (line : string) : Prop := Py.startswith line "ATOM" = true.

#[export] Instance is_atom_dec line : Decision (is_atom line).
Proof. unfold is_atom. apply bool_eq_dec. Defined.

(** The ATOM lines of a file, in file order. *)
Definition atom_lines (raw : string) : list string :=
  filter is_atom (Py.readlines raw).

(** The alternate-location marker of a line: the character in column 16
    (counting from 0), when the line is long enough to have one. *)
Definition marker (line : string) : option ascii := String.get pos line.

(** The markers occurring among the ATOM lines, and the non-default ones. *)
Definition markers (raw : string) : list ascii := omap marker (atom_lines raw).

Definition non_default (ms : list ascii) : list ascii :=
  filter (λ m, m ≠ " "%char) ms.

(** Distinct elements in order of first occurrence. *)
Fixpoint nub (l : list ascii) : list ascii :=
  match l with
  | [] => []
  | x :: l' => x :: filter (λ y, y ≠ x) (nub l')
  end.

(** What the output for marker [k] is expected to hold: the ATOM lines whose
    marker is blank or [k], in file order, each with its marker blanked. *)
Definition in_variant (k : ascii) (line : string) : Prop :=
  marker line = Some " "%char ∨ marker line = Some k.

#[export] Instance in_variant_dec k line : Decision (in_variant k line).
Proof. unfold in_variant. apply _. Defined.

Definition expected_records (k : ascii) (raw : string) : list string :=
  blank_marker <$> filter (in_variant k) (atom_lines raw).

Definition default_records (raw : string) : list string :=
  blank_marker <$> filter (λ l, marker l = Some " "%char) (atom_lines raw).

Definition variant_records (k : ascii) (raw : string) : list string :=
  blank_marker <$> filter (λ l, marker l = Some k) (atom_lines raw).

(** Text of a file holding the given records. *)
Definition join (ls : list string) : string := foldr String.append "" ls.

(** The events a call appended to the trace. *)
Definition new_events (w w' : world) : list event :=
  drop (length (trace w)) (trace w').

(** Paths opened for writing, in order. *)
Definition opened_for_writing (tr : list event) : list string :=
  omap (λ e, match e with OpenWrite p => Some p | _ => None end) tr.

Definition opened_for_reading (tr : list event) : list string :=
  omap (λ e, match e with OpenRead p => Some p | _ => None end) tr.

(** The records each output file holds after a trace: opening for writing
    empties the file, every write appends one record. *)
Definition step_records (m : gmap string (list string)) (e : event)
    : gmap string (list string) :=
  match e with
  | OpenRead _ => m
  | OpenWrite p => <[p := []]> m
  | Write p d => alter (λ l, l ++ [d]) p m
  end.

Definition written_records (tr : list event) : gmap string (list string) :=
  foldl step_records ∅ tr.

(** ** Auxiliary view of the first loop: tagged records *)

Definition record : Type := ascii * (nat * string).

Fixpoint tag (c : nat) (ls : list string) : option (list record) :=
  match ls with
  | [] => Some []
  | l :: ls' =>
      match marker l, tag (S c) ls' with
      | Some st, Some rs => Some ((st, (c, blank_marker l)) :: rs)
      | _, _ => None
      end
  end.

Definition build (rs : list record) (g : groups_t) : groups_t :=
  foldl (λ g r, setdefault_append r.1 r.2 g) g rs.

Definition select (k : ascii) (rs : list record) : list (nat * string) :=
  (filter (λ r : record, r.1 = " "%char ∨ r.1 = k) rs).*2.

(** One output file written in full. *)
Definition emit (path : string) (ls : list string) (w : world) : world :=
  World (<[path := join ls]> (files w))
        (trace w ++ OpenWrite path :: (Write path <$> ls)).

(** ** Functional description of a call *)

(** Every ATOM line is long enough to have a marker column. *)
Definition well_formed (raw : string) : Prop :=
  Forall (λ l, is_Some (marker l)) (atom_lines raw).

#[export] Instance well_formed_dec raw : Decision (well_formed raw).
Proof. unfold well_formed. apply _. Defined.

(** The non-default markers in order of first occurrence: the keys the
    second loop does not skip. *)
Definition variants (raw : string) : list ascii :=
  non_default (nub (markers raw)).

Definition emit_variants (fn raw : string) (ks : list ascii) (w : world) : world :=
  foldl (λ w k, emit (out_path fn k) (expected_records k raw) w) w ks.

Definition outcome (fn raw : string) (w : world) : (exn + unit) * world :=
  if decide (well_formed raw) then
    match variants raw with
    | [] => (inr tt, w)
    | ks => if decide (" "%char ∈ markers raw)
            then (inr tt, emit_variants fn raw ks w)
            else (inl KeyError, w)
    end
  else (inl IndexError, w).

(** The events of writing the output for marker [k]. *)
Definition variant_events (fn raw : string) (k : ascii) : list event :=
  OpenWrite (out_path fn k) :: (Write (out_path fn k) <$> expected_records k raw).

(** The markers for which an output is written: all the variants when the
    call gets past both failure points, none otherwise. *)
Definition emitted (raw : string) : list ascii :=
  if decide (well_formed raw ∧ " "%char ∈ markers raw) then variants raw else [].

Definition result_of (raw : string) : exn + unit :=
  if decide (well_formed raw) then
    if decide (variants raw = [] ∨ " "%char ∈ markers raw) then inr tt
    else inl KeyError
  else inl IndexError.

(** The last marker, in dictionary order, whose output goes to path [p]. *)
Definition last_writer (fn p : string) (ks : list ascii) : option ascii :=
  last (filter (λ k, out_path fn k = p) ks).

(** The least a line must satisfy to match the fixed-width atom-record
    layout the splitter relies on: the ATOM flag and a marker column. *)
Definition fixed_width (line : string) : Prop :=
  is_atom line ∧ is_Some (marker line).

#[export] Instance fixed_width_dec line : Decision (fixed_width line).
Proof. unfold fixed_width. apply _. Defined.

(** ** Sample inputs *)

Module Samples.

Definition eol : string := Py.chr Py.LF.

(** A residue with two alternate conformations of its CA atom. *)
Definition two_variants : string :=
  "HEADER    villin" +:+ eol +:+
  "ATOM      1  N   LEU A  42" +:+ eol +:+
  "ATOM      2  CA ALEU A  42" +:+ eol +:+
  "ATOM      3  CA BLEU A  42" +:+ eol +:+
  "ATOM      4  C   LEU A  42" +:+ eol +:+
  "END".

(** No alternate conformation at all. *)
Definition plain : string :=
  "ATOM      1  N   LEU A  42" +:+ eol +:+
  "ATOM      2  CA  LEU A  42" +:+ eol.

(** Only marked atoms: the default group is missing. *)
Definition no_default : string :=
  "ATOM      1  CA ALEU A  42" +:+ eol.

(** A marked atom followed by an ATOM line cut short. *)
Definition truncated : string :=
  "ATOM      1  CA ALEU A  42" +:+ eol +:+ "ATOM" +:+ eol.

(** A single ATOM line cut short. *)
Definition short_line : string := "ATOM" +:+ eol.

(** Markers [A] and [a], which differ only in letter case. *)
Definition case_clash : string :=
  "ATOM      1  N   LEU A  42" +:+ eol +:+
  "ATOM      2  CA ALEU A  42" +:+ eol +:+
  "ATOM      3  CA aLEU A  42" +:+ eol.

Definition disk (raw : string) : world := World {[ "1yrf.pdb" := raw ]} [].

End Samples.

(** ** The simulation driver

    The engine is an external package: the notebook only builds a
    [Simulation] object, configures its list of reporters and calls the
    engine.  A [Simulation] is modelled by the fields the notebook touches
    and by the log of the engine calls made on it; each [step] call is logged
    with the reporters attached at that moment. *)

Module Driver.

Inductive sink : Type :=
  | Stdout
  | File (name : string).

(** Reporters as the notebook constructs them: the output, the report
    interval, and for [StateDataReporter] the keyword arguments passed. *)
Inductive reporter : Type :=
  | DCDReporter (file : string) (reportInterval : nat)
  | StateDataReporter (file : sink) (reportInterval : nat)
      (kwargs : list (string * bool)).

Inductive call : Type :=
  | SetPositions
  | MinimizeEnergy (maxIterations : nat)
  | GetPositions
  | WriteFile (name : string)
  | Step (steps : nat) (attached : list reporter).

Record simulation : Type := Simulation {
  reporters : list reporter;
  calls : list call
}.

Definition engine (c : call) (s : simulation) : simulation :=
  Simulation (reporters s) (calls s ++ [c]).

(** [simulation.context.setPositions(modeller.positions)] *)
Definition setPositions : simulation → simulation := engine SetPositions.

(** [simulation.minimizeEnergy(maxIterations=n)] *)
Definition minimizeEnergy (maxIterations : nat) : simulation → simulation :=
  engine (MinimizeEnergy maxIterations).

(** [simulation.context.getState(getPositions=True).getPositions()] *)
Definition getPositions : simulation → simulation := engine GetPositions.

(** [PDBFile.writeFile(simulation.topology, positions, f)] *)
Definition writeFile (name : string) : simulation → simulation :=
  engine (WriteFile name).

(** [simulation.reporters = l] *)
Definition set_reporters (l : list reporter) (s : simulation) : simulation :=
  Simulation l (calls s).

(** [simulation.reporters.append(r)] *)
Definition append_reporter (r : reporter) (s : simulation) : simulation :=
  Simulation (reporters s ++ [r]) (calls s).

(** [simulation.step(n)] *)
Definition step (n : nat) (s : simulation) : simulation :=
  engine (Step n (reporters s)) s.

(** The end of the cell that builds the simulation. *)
Definition prepare (s : simulation) : simulation :=
  let s := setPositions s in
  let s := minimizeEnergy 100 s in
  let s := getPositions s in
  writeFile "init.pdb" s.

(** The cell that runs it. *)
Definition run (s : simulation) : simulation :=
  let s := set_reporters [] s in
  let s := append_reporter (DCDReporter "traj.dcd" 10) s in
  let s := append_reporter
             (StateDataReporter Stdout 100
                [("step", true); ("temperature", true); ("elapsedTime", true)]) s in
  let s := append_reporter
             (StateDataReporter (File "scalars.csv") 10
                [("step", true); ("time", true); ("potentialEnergy", true);
                 ("totalEnergy", true); ("temperature", true)]) s in
  step 3000 s.

Definition driver (s : simulation) : simulation := run (prepare s).

(** The columns a scalar reporter is asked for: the keywords passed as
    [True] (a keyword not passed keeps the constructor's default, off). *)
Definition columns (r : reporter) : list string :=
  match r with
  | DCDReporter _ _ => []
  | StateDataReporter _ _ kwargs => (filter (λ kv, kv.2 = true) kwargs).*1
  end.

Definition interval (r : reporter) : nat :=
  match r with
  | DCDReporter _ n => n
  | StateDataReporter _ n _ => n
  end.

Definition writes_to (name : string) (r : reporter) : Prop :=
  match r with
  | DCDReporter f _ => f = name
  | StateDataReporter (File f) _ _ => f = name
  | StateDataReporter Stdout _ _ => False
  end.

Definition is_trajectory (r : reporter) : Prop :=
  match r with DCDReporter _ _ => True | _ => False end.

End Driver.

(** ** The cell that calls the splitter *)

(** [split_pdb("1yrf.pdb")] followed by [pdb = PDBFile('1yrf_a.pdb')]: the
    constructor opens the named file and reads it; what it makes of the text
    is the engine's business. *)
Definition load_structure : io string :=
  split_pdb "1yrf.pdb" ;; open_read "1yrf_a.pdb".

(** ** Shapes of text *)

(** The character [c] occurs in [s]. *)
Fixpoint occurs (c : ascii) (s : string) : bool :=
  match s with
  | "" => false
  | String a s' => Ascii.eqb a c || occurs c s'
  end.

(** A piece of text holding no LF, except possibly as its last character. *)
Fixpoint one_line (s : string) : bool :=
  match s with
  | "" => true
  | String a s' =>
      if Ascii.eqb a Py.LF then match s' with "" => true | _ => false end
      else one_line s'
  end.

(** The text ends with LF. *)
Fixpoint ends_lf (s : string) : bool :=
  match s with
  | "" => false
  | String a "" => Ascii.eqb a Py.LF
  | String _ s' => ends_lf s'
  end.

(** The same text with CR LF line endings in place of LF. *)
Fixpoint to_crlf (s : string) : string :=
  match s with
  | "" => ""
  | String a s' =>
      if Ascii.eqb a Py.LF then String Py.CR (String Py.LF (to_crlf s'))
      else String a (to_crlf s')
  end.

(** * Proofs *)

(** ** Strings *)

Section strings.

Lemma app_cons c s t : String c s +:+ t = String c (s +:+ t).
Proof. reflexivity. Qed.

Lemma app_nil_l t : "" +:+ t = t.
Proof. reflexivity. Qed.

Lemma app_assoc' s t u : (s +:+ t) +:+ u = s +:+ (t +:+ u).
Proof. induction s as [|c s IH]; [done|]. by rewrite !app_cons, IH. Qed.

Lemma app_nil_r' s : s +:+ "" = s.
Proof. induction s as [|c s IH]; [done|]. by rewrite app_cons, IH. Qed.

Lemma str_length_app s t : String.length (s +:+ t) = String.length s + String.length t.
Proof. induction s as [|c s IH]; [done|]. rewrite app_cons. simpl. by rewrite IH. Qed.

Lemma length_upto n s : String.length (Py.upto n s) = n `min` String.length s.
Proof.
  revert s. induction n as [|n IH]; intros [|c s]; simpl; try done.
  by rewrite IH.
Qed.

Lemma length_from n s : String.length (Py.from n s) = String.length s - n.
Proof. revert s. induction n as [|n IH]; intros [|c s]; simpl; auto. Qed.

Lemma get_is_Some n s : is_Some (String.get n s) ↔ n < String.length s.
Proof.
  revert n. induction s as [|c s IH]; intros [|n]; simpl.
  - split; [by intros [? ?]|lia].
  - split; [by intros [? ?]|lia].
  - split; [lia|eauto].
  - rewrite IH. lia.
Qed.

Lemma get_None n s : String.get n s = None ↔ String.length s ≤ n.
Proof.
  rewrite eq_None_not_Some, get_is_Some. lia.
Qed.

(** Replacing the character at index [n] by a blank. *)
Lemma replace_get n s m i :
  String.get n s = Some m →
  String.get i (Py.upto n s +:+ " " +:+ Py.from (S n) s) =
    if decide (i = n) then Some " "%char else String.get i s.
Proof.
  revert s i. induction n as [|n IH]; intros [|c s] i Hm; try discriminate Hm.
  - destruct i; done.
  - change (Py.upto (S n) (String c s)) with (String c (Py.upto n s)).
    change (Py.from (S (S n)) (String c s)) with (Py.from (S n) s).
    rewrite app_cons. destruct i as [|i]; [done|].
    change (String.get (S i) (String c ?x)) with (String.get i x).
    simpl in Hm. rewrite (IH _ i Hm).
    repeat case_decide; done || lia.
Qed.

Lemma replace_length n s m :
  String.get n s = Some m →
  String.length (Py.upto n s +:+ " " +:+ Py.from (S n) s) = String.length s.
Proof.
  intros Hm. assert (n < String.length s) by (apply get_is_Some; eauto).
  rewrite !str_length_app, length_upto, length_from. simpl. lia.
Qed.

Lemma prefix_get p s :
  String.prefix p s = true ↔
  ∀ i, i < String.length p → String.get i s = String.get i p.
Proof.
  revert s. induction p as [|a p IH]; intros s; simpl.
  - split; [intros _ i; lia|]. by destruct s.
  - destruct s as [|b s]; simpl.
    + split; [done|]. intros H. specialize (H 0). simpl in H.
      discriminate H. lia.
    + destruct (ascii_dec a b) as [->|Hne].
      * rewrite IH. split.
        -- intros H [|i] ?; simpl; [done|]. apply H. lia.
        -- intros H i ?. apply (H (S i)). lia.
      * split; [done|]. intros H. specialize (H 0). simpl in H.
        destruct Hne. injection H; [done|lia].
Qed.

End strings.

(** ** The dictionary [groups] *)

Section groups.

Implicit Types (g : groups_t) (rs : list record) (k : ascii).

Lemma getitem_setdefault_append k st it g :
  getitem k (setdefault_append st it g) =
    if decide (st = k) then Some (default [] (getitem k g) ++ [it])
    else getitem k g.
Proof.
  induction g as [|[k' v] g IH]; csimpl.
  - repeat case_decide; simplify_eq; done.
  - destruct (decide (k' = st)) as [->|Hne]; csimpl.
    + repeat case_decide; simplify_eq; done.
    + rewrite IH. repeat case_decide; simplify_eq; done.
Qed.

Lemma keys_setdefault_append st it g :
  (setdefault_append st it g).*1 =
    if decide (st ∈ g.*1) then g.*1 else g.*1 ++ [st].
Proof.
  induction g as [|[k' v] g IH]; csimpl.
  - by rewrite ?decide_False by apply not_elem_of_nil.
  - destruct (decide (k' = st)) as [->|Hne]; csimpl.
    + rewrite decide_True by left. done.
    + rewrite IH. destruct (decide (st ∈ g.*1)) as [Hin|Hnin].
      * rewrite decide_True by (by right). done.
      * rewrite decide_False; [done|].
        intros [?|?]%elem_of_cons; congruence.
Qed.

Lemma build_cons r rs g :
  build (r :: rs) g = build rs (setdefault_append r.1 r.2 g).
Proof. reflexivity. Qed.

Lemma getitem_build k rs g :
  getitem k (build rs g) =
    match getitem k g, (filter (λ r : record, r.1 = k) rs).*2 with
    | None, [] => None
    | o, new => Some (default [] o ++ new)
    end.
Proof.
  revert g. induction rs as [|r rs IH]; intros g.
  - csimpl. destruct (getitem k g); csimpl; [by rewrite app_nil_r|done].
  - rewrite build_cons, IH, getitem_setdefault_append, filter_cons.
    destruct (decide (r.1 = k)) as [Heq|Hne].
    + destruct (getitem k g); csimpl; by rewrite <-?(assoc_L (++)).
    + done.
Qed.

Lemma getitem_build_nil k rs :
  getitem k (build rs []) =
    match (filter (λ r : record, r.1 = k) rs).*2 with
    | [] => None
    | new => Some new
    end.
Proof. rewrite getitem_build. csimpl. by destruct (_.*2). Qed.

Lemma elem_of_nub x l : x ∈ nub l ↔ x ∈ l.
Proof.
  induction l as [|y l IH]; csimpl; [done|].
  rewrite !elem_of_cons, list_elem_of_filter, IH.
  destruct (decide (x = y)); naive_solver.
Qed.

Lemma NoDup_nub l : NoDup (nub l).
Proof.
  induction l as [|y l IH]; csimpl; [constructor|].
  constructor.
  - rewrite list_elem_of_filter. naive_solver.
  - by apply NoDup_filter.
Qed.

Lemma keys_build rs g :
  (build rs g).*1 = g.*1 ++ filter (λ x, x ∉ g.*1) (nub rs.*1).
Proof.
  revert g. induction rs as [|r rs IH]; intros g.
  - csimpl. by rewrite app_nil_r.
  - rewrite build_cons, IH, keys_setdefault_append. csimpl.
    rewrite filter_cons, !list_filter_filter.
    destruct (decide (r.1 ∈ g.*1)) as [Hin|Hnin].
    + rewrite decide_False by naive_solver. f_equal.
      apply list_filter_iff. intros x. naive_solver.
    + rewrite decide_True by done. rewrite <-(assoc_L (++)). csimpl.
      do 2 f_equal. apply list_filter_iff. intros x.
      rewrite elem_of_app, list_elem_of_singleton. naive_solver.
Qed.

Lemma keys_build_nil rs : (build rs []).*1 = nub rs.*1.
Proof.
  rewrite keys_build. csimpl.
  induction (nub rs.*1) as [|x l IH]; [done|].
  rewrite filter_cons_True by apply not_elem_of_nil. by rewrite IH.
Qed.

Lemma getitem_items k v g :
  NoDup g.*1 → (k, v) ∈ g → getitem k g = Some v.
Proof.
  induction g as [|[k' v'] g IH]; csimpl; intros Hnd Hin.
  - by apply elem_of_nil in Hin.
  - apply NoDup_cons in Hnd as [Hk' Hnd].
    apply elem_of_cons in Hin as [Heq|Hin].
    + simplify_eq. by rewrite decide_True.
    + rewrite decide_False; [by apply IH|].
      intros ->. apply Hk'. apply list_elem_of_fmap. by exists (k, v).
Qed.

End groups.

(** ** The first loop *)

Section first_loop.

Implicit Types (ls lines : list string) (rs : list record) (c : nat).

Lemma read_loop_tag lines g c :
  read_loop lines g c =
    match tag c (filter is_atom lines) with
    | None => inl IndexError
    | Some rs => inr (build rs g, c + length rs)
    end.
Proof.
  revert g c. induction lines as [|line lines IH]; intros g c.
  - simpl. do 2 f_equal. lia.
  - rewrite filter_cons. simpl read_loop.
    destruct (decide (is_atom line)) as [Ha|Ha].
    + unfold is_atom in Ha. rewrite Ha. simpl tag. unfold marker.
      destruct (String.get pos line) as [st|]; [|done].
      rewrite IH. destruct (tag (S c) _) as [rs|]; [|done].
      rewrite build_cons. simpl. do 2 f_equal. lia.
    + unfold is_atom in Ha. apply not_true_is_false in Ha. rewrite Ha.
      apply IH.
Qed.

Lemma tag_Some c ls :
  Forall (λ l, is_Some (marker l)) ls → is_Some (tag c ls).
Proof.
  intros H. revert c. induction H as [|l ls [st Hst] _ IH]; intros c; simpl.
  - eauto.
  - rewrite Hst. destruct (IH (S c)) as [rs ->]. eauto.
Qed.

Lemma tag_None c ls :
  tag c ls = None ↔ ∃ l, l ∈ ls ∧ marker l = None.
Proof.
  revert c. induction ls as [|l ls IH]; intros c; simpl.
  - split; [done|]. intros (l & Hl & _). by apply elem_of_nil in Hl.
  - destruct (marker l) as [st|] eqn:Hst.
    + destruct (tag (S c) ls) as [rs|] eqn:Hrs.
      * split; [done|]. intros (l' & [->|Hl']%elem_of_cons & Hn).
        -- congruence.
        -- assert (tag (S c) ls = None) by (apply IH; eauto). congruence.
      * split; [|done]. intros _. apply IH in Hrs as (l' & ? & ?).
        exists l'. split; [by right|done].
    + split; [|done]. intros _. exists l. split; [left|done].
Qed.

Lemma tag_markers c ls rs : tag c ls = Some rs → rs.*1 = omap marker ls.
Proof.
  revert c rs. induction ls as [|l ls IH]; intros c rs; simpl.
  - by intros [= <-].
  - destruct (marker l) as [st|]; [|done].
    destruct (tag (S c) ls) as [rs'|] eqn:Hrs; [|done].
    intros [= <-]. csimpl. f_equal. by eapply IH.
Qed.

(** Selecting records by marker commutes with tagging. *)
Lemma tag_filter (P : ascii → Prop) (Q : string → Prop)
    `{!∀ r : record, Decision (P r.1), !∀ l, Decision (Q l)} c ls rs :
  (∀ l m, marker l = Some m → (Q l ↔ P m)) →
  tag c ls = Some rs →
  (filter (λ r : record, P r.1) rs).*2.*2 = blank_marker <$> filter Q ls.
Proof.
  intros HPQ. revert c rs. induction ls as [|l ls IH]; intros c rs; simpl.
  - by intros [= <-].
  - destruct (marker l) as [st|] eqn:Hst; [|done].
    destruct (tag (S c) ls) as [rs'|] eqn:Hrs; [|done].
    intros [= <-]. rewrite !filter_cons. csimpl.
    specialize (HPQ l st Hst). specialize (IH _ _ Hrs).
    destruct (decide (P st)), (decide (Q l)); csimpl;
      try (exfalso; naive_solver); by rewrite IH.
Qed.

(** Counters increase strictly along the records. *)
Lemma tag_counters c ls rs :
  tag c ls = Some rs →
  Forall (λ r : record, c ≤ r.2.1) rs ∧
  StronglySorted (λ a b : nat * string, a.1 < b.1) rs.*2.
Proof.
  revert c rs. induction ls as [|l ls IH]; intros c rs; simpl.
  - intros [= <-]. split; constructor.
  - destruct (marker l) as [st|]; [|done].
    destruct (tag (S c) ls) as [rs'|] eqn:Hrs; [|done].
    intros [= <-]. destruct (IH _ _ Hrs) as [Hge Hs]. split.
    + constructor; [simpl; lia|].
      eapply Forall_impl; [exact Hge|]. simpl. intros; lia.
    + csimpl. constructor; [done|].
      apply Forall_fmap. eapply Forall_impl; [exact Hge|].
      simpl. intros; lia.
Qed.

End first_loop.

(** ** Sorting the merged groups *)

Section sorting.

Lemma tuple_le_spec (a b : nat * string) :
  Py.tuple_le a b ↔ a.1 < b.1 ∨ (a.1 = b.1 ∧ String.leb a.2 b.2 = true).
Proof.
  unfold Py.tuple_le, Py.tuple_leb.
  destruct (Nat.ltb_spec a.1 b.1), (Nat.eqb_spec a.1 b.1);
    split; intros; try done; try lia; auto; naive_solver lia.
Qed.

#[local] Instance tuple_le_trans : Transitive Py.tuple_le.
Proof.
  intros a b c. rewrite !tuple_le_spec.
  intros [?|[? Hab]] [?|[? Hbc]]; try (left; lia).
  right. split; [lia|]. apply Is_true_true.
  apply Is_true_true in Hab, Hbc.
  change (String.le a.2 c.2). by trans b.2.
Qed.

#[local] Instance tuple_le_total : Total Py.tuple_le.
Proof.
  intros a b. rewrite !tuple_le_spec.
  destruct (lt_eq_lt_dec a.1 b.1) as [[?|?]|?]; [auto| |auto].
  destruct (String.leb_total a.2 b.2); auto.
Qed.

#[local] Instance tuple_le_antisymm : AntiSymm (=) Py.tuple_le.
Proof.
  intros [a s] [b t]. rewrite !tuple_le_spec. simpl.
  intros [?|[? Hab]] [?|[? Hba]]; try lia.
  f_equal; [done|]. by apply String.leb_antisym.
Qed.

Lemma counter_lt_tuple_le (a b : nat * string) : a.1 < b.1 → Py.tuple_le a b.
Proof.
  intros H. apply tuple_le_spec. by left.
Qed.

Lemma StronglySorted_filter_snd (P : record → Prop) `{!∀ r, Decision (P r)}
    (R : relation (nat * string)) rs :
  StronglySorted R rs.*2 → StronglySorted R (filter P rs).*2.
Proof.
  induction rs as [|r rs IH]; csimpl; [done|].
  intros [Hs Hr]%StronglySorted_inv. rewrite filter_cons.
  destruct (decide (P r)); csimpl; [|by apply IH].
  constructor; [by apply IH|].
  apply Forall_fmap. rewrite Forall_forall in Hr. apply Forall_forall.
  intros x [_ Hx]%list_elem_of_filter. simpl. apply Hr.
  apply list_elem_of_fmap. by exists x.
Qed.

Lemma filter_or_Permutation {A} (P Q : A → Prop)
    `{!∀ x, Decision (P x), !∀ x, Decision (Q x)} (l : list A) :
  (∀ x, P x → Q x → False) →
  filter P l ++ filter Q l ≡ₚ filter (λ x, Q x ∨ P x) l.
Proof.
  intros Hd. induction l as [|x l IH]; [done|].
  rewrite !filter_cons.
  destruct (decide (P x)) as [HP|HP], (decide (Q x)) as [HQ|HQ].
  - destruct (Hd x HP HQ).
  - rewrite decide_True by auto. csimpl. by rewrite IH.
  - rewrite decide_True by auto. rewrite <-Permutation_middle. by rewrite IH.
  - rewrite decide_False by tauto. done.
Qed.

Lemma sort_select c ls rs k :
  k ≠ " "%char →
  tag c ls = Some rs →
  Py.sort ((filter (λ r : record, r.1 = k) rs).*2 ++
           (filter (λ r : record, r.1 = " "%char) rs).*2) = select k rs.
Proof.
  intros Hk Htag. unfold Py.sort, select.
  apply (StronglySorted_unique Py.tuple_le).
  - apply StronglySorted_merge_sort; apply _.
  - apply StronglySorted_filter_snd.
    destruct (tag_counters _ _ _ Htag) as [_ Hs].
    revert Hs. generalize (rs.*2). intros l Hs.
    induction Hs as [|x l Hs IH Hx]; constructor; [done|].
    eapply Forall_impl; [exact Hx|]. intros y. apply counter_lt_tuple_le.
  - rewrite merge_sort_Permutation, <-fmap_app.
    apply fmap_Permutation. apply filter_or_Permutation.
    intros r -> ?. done.
Qed.

End sorting.

(** ** The second loop and the functional description of [split_pdb] *)

Section second_loop.

Lemma world_eta w : World (files w) (trace w) = w.
Proof. by destruct w. Qed.

Lemma write_lines_spec p lb w c :
  files w !! p = Some c →
  write_lines p lb w =
    (inr tt, World (<[p := c +:+ join lb.*2]> (files w))
                   (trace w ++ (Write p <$> lb.*2))).
Proof.
  revert w c. induction lb as [|[n line] lb IH]; intros w c Hc; csimpl.
  - rewrite app_nil_r', app_nil_r, insert_id by done. by rewrite world_eta.
  - unfold mbind, io_bind, write at 1.
    erewrite IH; [|simpl; rewrite lookup_alter_eq, Hc; done].
    simpl. rewrite insert_alter_eq, app_assoc', <-(assoc_L (++)). done.
Qed.

Lemma emit_spec p lb w :
  (open_write p ;; write_lines p lb) w = (inr tt, emit p lb.*2 w).
Proof.
  unfold mbind, io_bind, open_write at 1.
  erewrite write_lines_spec; [|simpl; apply lookup_insert_eq].
  simpl. rewrite insert_insert_eq, <-(assoc_L (++)). done.
Qed.

Lemma select_expected c raw rs k :
  tag c (atom_lines raw) = Some rs → (select k rs).*2 = expected_records k raw.
Proof.
  intros Htag. unfold select, expected_records.
  apply (tag_filter (λ m, m = " "%char ∨ m = k) (in_variant k) c); [|done].
  intros l m Hm. unfold in_variant. rewrite Hm. naive_solver.
Qed.

Lemma write_loop_spec fn c raw rs items w :
  tag c (atom_lines raw) = Some rs →
  (∀ kv, kv ∈ items → kv ∈ build rs []) →
  write_loop fn (build rs []) items w =
    match non_default items.*1 with
    | [] => (inr tt, w)
    | ks => if decide (" "%char ∈ markers raw)
            then (inr tt, emit_variants fn raw ks w)
            else (inl KeyError, w)
    end.
Proof.
  intros Htag. revert w.
  assert (Hnd : NoDup (build rs []).*1).
  { rewrite keys_build_nil. apply NoDup_nub. }
  assert (Hget : ∀ k, getitem k (build rs []) =
    match (filter (λ r : record, r.1 = k) rs).*2 with
    | [] => None | new => Some new end)
    by (intros k; apply getitem_build_nil).
  assert (Hdef : " "%char ∈ markers raw ↔
                 is_Some (getitem " "%char (build rs []))).
  { unfold markers. rewrite Hget, <-(tag_markers _ _ _ Htag). split.
    - intros ([st it] & Hst & Hin)%list_elem_of_fmap. simpl in Hst. subst st.
      assert (Hf : (" "%char, it) ∈ filter (λ r : record, r.1 = " "%char) rs)
        by (by apply list_elem_of_filter).
      destruct (filter _ rs); [by apply elem_of_nil in Hf|by eexists].
    - destruct (filter _ rs) as [|r l] eqn:Hf; [by intros [? ?]|].
      intros _. assert (Hr : r ∈ filter (λ r : record, r.1 = " "%char) rs)
        by (rewrite Hf; left).
      apply list_elem_of_filter in Hr as [Hr1 Hr2].
      apply list_elem_of_fmap. by exists r. }
  induction items as [|[key lines_group] items IH]; intros w Hsub; [done|].
  simpl write_loop. unfold non_default. csimpl. rewrite filter_cons.
  assert (Hrest : ∀ kv, kv ∈ items → kv ∈ build rs [])
    by (intros; apply Hsub; by right).
  destruct (decide (key = " "%char)) as [->|Hkey].
  - rewrite decide_False by naive_solver. by apply IH.
  - rewrite decide_True by done.
    destruct (decide (" "%char ∈ markers raw)) as [Hin|Hnin].
    + apply Hdef in Hin as [default Hdefault]. rewrite Hdefault.
      assert (Hgrp : getitem key (build rs []) = Some lines_group).
      { apply getitem_items; [done|]. apply Hsub. left. }
      assert (lines_group = (filter (λ r : record, r.1 = key) rs).*2) as ->.
      { rewrite Hget in Hgrp. destruct (_.*2); congruence. }
      assert (default = (filter (λ r : record, r.1 = " "%char) rs).*2) as ->.
      { rewrite Hget in Hdefault. destruct (_.*2); congruence. }
      rewrite (sort_select c _ rs key Hkey Htag).
      change (?a ;; ?b ;; ?k) with ((a ;; b) ≫= (λ _, k)).
      unfold mbind at 1, io_bind at 1. rewrite emit_spec.
      rewrite (select_expected c raw) by done.
      rewrite IH by done. fold (non_default items.*1).
      unfold emit_variants. simpl.
      by destruct (non_default items.*1).
    + destruct (getitem " "%char (build rs [])) eqn:Hg; [|done].
      destruct Hnin. apply Hdef. eauto.
Qed.

Theorem split_pdb_spec fn w :
  split_pdb fn w =
    match files w !! fn with
    | None => (inl FileNotFoundError, w)
    | Some raw => outcome fn raw (log (OpenRead fn) w)
    end.
Proof.
  unfold split_pdb, mbind, io_bind, open_read.
  destruct (files w !! fn) as [raw|]; [|done].
  rewrite read_loop_tag. fold (atom_lines raw). unfold outcome.
  destruct (tag 0 (atom_lines raw)) as [rs|] eqn:Htag.
  - rewrite decide_True.
    2:{ apply Forall_forall. intros l Hl.
        destruct (marker l) eqn:Hm; [eauto|].
        assert (tag 0 (atom_lines raw) = None) by (apply tag_None; eauto).
        congruence. }
    simpl. rewrite (write_loop_spec fn 0 raw) by done.
    rewrite keys_build_nil, (tag_markers _ _ _ Htag). done.
  - rewrite decide_False; [done|].
    apply tag_None in Htag as (l & Hl & Hm). intros Hwf.
    eapply Forall_forall in Hwf; [|exact Hl]. rewrite Hm in Hwf.
    by destruct Hwf.
Qed.

End second_loop.

(** ** Summary of one call: result, trace and files *)

Section summary.

Lemma emit_variants_trace fn raw ks w :
  trace (emit_variants fn raw ks w) = trace w ++ (ks ≫= variant_events fn raw).
Proof.
  revert w. induction ks as [|k ks IH]; intros w; csimpl.
  - by rewrite app_nil_r.
  - unfold emit_variants in *. simpl. rewrite IH. simpl.
    by rewrite <-(assoc_L (++)).
Qed.

Lemma emit_variants_files fn raw ks w :
  files (emit_variants fn raw ks w) =
    foldl (λ m k, <[out_path fn k := join (expected_records k raw)]> m)
          (files w) ks.
Proof.
  revert w. induction ks as [|k ks IH]; intros w; [done|].
  unfold emit_variants in *. simpl. by rewrite IH.
Qed.

Lemma outcome_result fn raw w : (outcome fn raw w).1 = result_of raw.
Proof.
  unfold outcome, result_of. case_decide; [|done].
  destruct (variants raw) as [|k ks] eqn:Hv.
  - rewrite decide_True by auto. done.
  - destruct (decide (" "%char ∈ markers raw)).
    + rewrite decide_True by auto. done.
    + rewrite decide_False by naive_solver. done.
Qed.

Lemma outcome_world fn raw w :
  (outcome fn raw w).2 = emit_variants fn raw (emitted raw) w.
Proof.
  unfold outcome, emitted. destruct (decide (well_formed raw)) as [Hwf|Hwf].
  - destruct (variants raw) as [|k ks] eqn:Hv.
    + by case_decide.
    + destruct (decide (" "%char ∈ markers raw)).
      * rewrite decide_True by done. done.
      * rewrite decide_False by naive_solver. done.
  - rewrite decide_False by naive_solver. done.
Qed.

Lemma split_pdb_result fn w raw :
  files w !! fn = Some raw → (split_pdb fn w).1 = result_of raw.
Proof. intros H. by rewrite split_pdb_spec, H, outcome_result. Qed.

Lemma split_pdb_missing fn w :
  files w !! fn = None → split_pdb fn w = (inl FileNotFoundError, w).
Proof. intros H. by rewrite split_pdb_spec, H. Qed.

Lemma split_pdb_trace fn w raw :
  files w !! fn = Some raw →
  trace (split_pdb fn w).2 =
    trace w ++ OpenRead fn :: (emitted raw ≫= variant_events fn raw).
Proof.
  intros H. rewrite split_pdb_spec, H, outcome_world, emit_variants_trace.
  simpl. by rewrite <-(assoc_L (++)).
Qed.

Lemma split_pdb_new_events fn w raw :
  files w !! fn = Some raw →
  new_events w (split_pdb fn w).2 =
    OpenRead fn :: (emitted raw ≫= variant_events fn raw).
Proof.
  intros H. unfold new_events. rewrite (split_pdb_trace _ _ _ H).
  by rewrite drop_app_length.
Qed.

Lemma split_pdb_files fn w raw :
  files w !! fn = Some raw →
  files (split_pdb fn w).2 =
    foldl (λ m k, <[out_path fn k := join (expected_records k raw)]> m)
          (files w) (emitted raw).
Proof.
  intros H. by rewrite split_pdb_spec, H, outcome_world, emit_variants_files.
Qed.

Lemma lookup_foldl_insert {V} (f : ascii → V) fn ks (m : gmap string V) p :
  foldl (λ m k, <[out_path fn k := f k]> m) m ks !! p =
    match last_writer fn p ks with
    | Some k => Some (f k)
    | None => m !! p
    end.
Proof.
  unfold last_writer. revert m.
  induction ks as [|k ks IH]; intros m; [done|].
  simpl foldl. rewrite IH, filter_cons.
  destruct (decide (out_path fn k = p)) as [Heq|Hne].
  - rewrite last_cons. destruct (last (filter _ ks)); [done|].
    by rewrite Heq, lookup_insert_eq.
  - destruct (last (filter _ ks)); [done|]. by rewrite lookup_insert_ne.
Qed.

Lemma last_writer_Some fn p ks k :
  last_writer fn p ks = Some k → k ∈ ks ∧ out_path fn k = p.
Proof.
  unfold last_writer. intros Hl.
  assert (Hin : k ∈ filter (λ k, out_path fn k = p) ks).
  { apply last_Some in Hl as [l' ->]. apply elem_of_app. right. left. }
  apply list_elem_of_filter in Hin. tauto.
Qed.

Lemma last_writer_None fn p ks :
  last_writer fn p ks = None ↔ ∀ k, k ∈ ks → out_path fn k ≠ p.
Proof.
  unfold last_writer. rewrite last_None. split.
  - intros Hf k Hk Hp.
    assert (Hin : k ∈ filter (λ k, out_path fn k = p) ks)
      by (by apply list_elem_of_filter).
    rewrite Hf in Hin. by apply elem_of_nil in Hin.
  - intros H. apply elem_of_nil_inv. intros k [? ?]%list_elem_of_filter.
    by eapply H.
Qed.

(** Replaying the events of a call gives the records of each output. *)
Lemma replay_writes p ls (m : gmap string (list string)) l0 :
  m !! p = Some l0 →
  foldl step_records m (Write p <$> ls) = <[p := l0 ++ ls]> m.
Proof.
  revert m l0. induction ls as [|d ls IH]; intros m l0 Hm; csimpl.
  - by rewrite app_nil_r, insert_id.
  - erewrite IH; [|rewrite lookup_alter_eq, Hm; done].
    by rewrite insert_alter_eq, <-(assoc_L (++)).
Qed.

Lemma replay_variants fn raw ks (m : gmap string (list string)) :
  foldl step_records m (ks ≫= variant_events fn raw) =
    foldl (λ m k, <[out_path fn k := expected_records k raw]> m) m ks.
Proof.
  revert m. induction ks as [|k ks IH]; intros m; [done|].
  csimpl. rewrite foldl_app, <-IH. f_equal.
  erewrite replay_writes; [|apply lookup_insert_eq].
  by rewrite insert_insert_eq.
Qed.

Lemma written_records_split_pdb fn w raw p :
  files w !! fn = Some raw →
  written_records (new_events w (split_pdb fn w).2) !! p =
    (λ k, expected_records k raw) <$> last_writer fn p (emitted raw).
Proof.
  intros H. rewrite (split_pdb_new_events _ _ _ H). unfold written_records.
  simpl. rewrite replay_variants, lookup_foldl_insert.
  destruct (last_writer _ _ _); [done|]. apply lookup_empty.
Qed.

Lemma files_split_pdb fn w raw p :
  files w !! fn = Some raw →
  files (split_pdb fn w).2 !! p =
    match last_writer fn p (emitted raw) with
    | Some k => Some (join (expected_records k raw))
    | None => files w !! p
    end.
Proof.
  intros H. rewrite (split_pdb_files _ _ _ H).
  apply (lookup_foldl_insert (λ k, join (expected_records k raw))).
Qed.

Lemma elem_of_variants raw k :
  k ∈ variants raw ↔ k ∈ markers raw ∧ k ≠ " "%char.
Proof.
  unfold variants, non_default.
  rewrite list_elem_of_filter, elem_of_nub. tauto.
Qed.

Lemma NoDup_variants raw : NoDup (variants raw).
Proof. apply NoDup_filter, NoDup_nub. Qed.

Lemma elem_of_emitted raw k :
  k ∈ emitted raw →
  k ∈ markers raw ∧ k ≠ " "%char ∧ well_formed raw ∧ " "%char ∈ markers raw.
Proof.
  unfold emitted. case_decide as H.
  - intros ?%elem_of_variants. tauto.
  - by intros ?%elem_of_nil.
Qed.

Lemma opened_for_writing_variants fn raw ks :
  opened_for_writing (ks ≫= variant_events fn raw) = out_path fn <$> ks.
Proof.
  induction ks as [|k ks IH]; [done|].
  csimpl. unfold opened_for_writing in *. rewrite omap_app, IH.
  simpl. f_equal.
  induction (expected_records k raw) as [|d l IHl]; [done|]. by csimpl.
Qed.

End summary.

(** ** Paths, markers and blanked lines *)

Section paths.

Lemma out_path_length fn k :
  String.length (out_path fn k) = String.length fn - 4 + 6.
Proof.
  unfold out_path, Py.drop_last, Py.chr.
  rewrite !str_length_app, length_upto. simpl. lia.
Qed.

Lemma out_path_ne_input fn k : out_path fn k ≠ fn.
Proof.
  intros H. apply (f_equal String.length) in H.
  rewrite out_path_length in H. lia.
Qed.

Lemma out_path_eq fn k1 k2 :
  out_path fn k1 = out_path fn k2 ↔ Py.lower k1 = Py.lower k2.
Proof.
  unfold out_path. split; [|by intros ->].
  intros H. apply (inj (String.app _)) in H. by injection H.
Qed.

Lemma upto_app_length s t : Py.upto (String.length s) (s +:+ t) = s.
Proof. induction s as [|c s IH]; [by destruct t|]. simpl. by rewrite IH. Qed.

(** For a name made of a base and a four-character extension, the output
    name is the base followed by the lower-cased marker and [.pdb]. *)
Lemma out_path_base base ext k :
  String.length ext = 4 →
  out_path (base +:+ ext) k = base +:+ "_" +:+ Py.chr (Py.lower k) +:+ ".pdb".
Proof.
  intros Hext. unfold out_path, Py.drop_last. f_equal.
  rewrite str_length_app, Hext.
  replace (String.length base + 4 - 4) with (String.length base) by lia.
  apply upto_app_length.
Qed.

Lemma lower_nat c :
  nat_of_ascii (Py.lower c) =
    if decide (65 ≤ nat_of_ascii c ≤ 90) then nat_of_ascii c + 32
    else nat_of_ascii c.
Proof.
  unfold Py.lower.
  destruct (Nat.leb_spec 65 (nat_of_ascii c)), (Nat.leb_spec (nat_of_ascii c) 90);
    simpl; case_decide; try lia; try done.
  apply nat_ascii_embedding. lia.
Qed.

Lemma nat_of_ascii_inj a b : nat_of_ascii a = nat_of_ascii b → a = b.
Proof.
  intros H. rewrite <-(ascii_nat_embedding a), <-(ascii_nat_embedding b).
  by rewrite H.
Qed.

(** At most two characters share a lower-case form. *)
Lemma lower_fibre k a b :
  a ≠ b → Py.lower a = Py.lower b → Py.lower k = Py.lower b → k = a ∨ k = b.
Proof.
  intros Hne Hab Hk.
  apply (f_equal nat_of_ascii) in Hab, Hk. rewrite !lower_nat in Hab, Hk.
  assert (nat_of_ascii a ≠ nat_of_ascii b) by (intros ?; by apply Hne, nat_of_ascii_inj).
  assert (nat_of_ascii k = nat_of_ascii a ∨ nat_of_ascii k = nat_of_ascii b)
    as [?|?]; [|left|right]; try by apply nat_of_ascii_inj.
  repeat case_decide; lia.
Qed.

Lemma blank_marker_get line m i :
  marker line = Some m →
  String.get i (blank_marker line) =
    if decide (i = pos) then Some " "%char else String.get i line.
Proof. intros H. by apply (replace_get pos line m). Qed.

Lemma blank_marker_length line m :
  marker line = Some m →
  String.length (blank_marker line) = String.length line.
Proof. intros H. by apply (replace_length pos line m). Qed.

Lemma blank_marker_is_atom line m :
  marker line = Some m → is_atom line → is_atom (blank_marker line).
Proof.
  unfold is_atom, Py.startswith. rewrite !prefix_get. intros Hm H i Hi.
  rewrite (blank_marker_get _ _ _ Hm).
  simpl in Hi. rewrite decide_False by (unfold pos; lia). by apply H.
Qed.

Lemma nub_app l1 l2 :
  nub (l1 ++ l2) = nub l1 ++ filter (λ x, x ∉ l1) (nub l2).
Proof.
  induction l1 as [|x l1 IH]; csimpl.
  - induction (nub l2) as [|y l IHl]; [done|].
    rewrite filter_cons_True by apply not_elem_of_nil. by rewrite <-IHl.
  - rewrite IH, filter_app, list_filter_filter. do 2 f_equal.
    apply list_filter_iff. intros y. rewrite not_elem_of_cons. tauto.
Qed.

Lemma filter_sublist {A} (P Q : A → Prop)
    `{!∀ x, Decision (P x), !∀ x, Decision (Q x)} (l : list A) :
  (∀ x, P x → Q x) → filter P l `sublist_of` filter Q l.
Proof.
  intros HPQ. induction l as [|x l IH]; [done|].
  rewrite !filter_cons. destruct (decide (P x)).
  - rewrite decide_True by auto. by constructor.
  - case_decide; [by constructor|done].
Qed.

Lemma length_remove_dups_NoDup `{EqDecision A} (l k : list A) :
  NoDup l → (∀ x, x ∈ l ↔ x ∈ k) → length l = length (remove_dups k).
Proof.
  intros Hl Hlk. apply Permutation_length, NoDup_Permutation;
    [done|apply NoDup_remove_dups|].
  intros x. by rewrite elem_of_remove_dups.
Qed.

Lemma length_remove_dups_fmap_inj `{EqDecision A, EqDecision B}
    (f : A → B) `{!Inj (=) (=) f} (l : list A) :
  length (remove_dups (f <$> l)) = length (remove_dups l).
Proof.
  induction l as [|x l IH]; [done|]. csimpl.
  destruct (decide_rel elem_of x l) as [Hin|Hnin],
    (decide_rel elem_of (f x) (f <$> l)) as [Hin'|Hnin']; simpl; auto.
  - destruct Hnin'. apply list_elem_of_fmap. eauto.
  - apply list_elem_of_fmap in Hin' as (y & ?%(inj f) & ?). by subst.
Qed.

End paths.

(** ** The structure splitter: properties *)

Section splitter.

Implicit Types (fn raw p : string) (w : world) (k m : ascii).

(** C1.  Every output file holds exactly the ATOM records whose marker is
    blank or the marker of that output, in file order and with the marker
    blanked: each default record is there once, in its original relative
    order, interleaved by position with the marker's own records. *)
Theorem split_pdb_outputs_interleaved fn raw w p (recs : list string) :
  files w !! fn = Some raw →
  written_records (new_events w (split_pdb fn w).2) !! p = Some recs →
  ∃ k, k ∈ markers raw ∧ k ≠ " "%char ∧ p = out_path fn k ∧
       recs = expected_records k raw ∧
       files (split_pdb fn w).2 !! p = Some (join recs) ∧
       default_records raw `sublist_of` recs ∧
       variant_records k raw `sublist_of` recs ∧
       length recs = length (default_records raw) + length (variant_records k raw).
Proof.
  intros Hfn Hrecs.
  rewrite (written_records_split_pdb _ _ _ _ Hfn) in Hrecs.
  destruct (last_writer fn p (emitted raw)) as [k|] eqn:Hk; [|done].
  injection Hrecs as <-.
  pose proof (files_split_pdb fn w raw p Hfn) as Hfiles. rewrite Hk in Hfiles.
  apply last_writer_Some in Hk as [Hk <-].
  apply elem_of_emitted in Hk as (Hk & Hne & _).
  exists k. split_and!; try done.
  - apply fmap_sublist, filter_sublist. unfold in_variant. tauto.
  - apply fmap_sublist, filter_sublist. unfold in_variant. tauto.
  - unfold expected_records, default_records, variant_records.
    rewrite !length_fmap, <-length_app. apply Permutation_length.
    symmetry. rewrite (list_filter_iff (in_variant k)
      (λ l, marker l = Some k ∨ marker l = Some " "%char))
      by (unfold in_variant; tauto).
    apply filter_or_Permutation. intros l H1 H2. congruence.
Qed.

Lemma split_pdb_outputs_interleaved_witness :
  let w := Samples.disk Samples.two_variants in
  files w !! "1yrf.pdb" = Some Samples.two_variants ∧
  ∃ k, k ∈ markers Samples.two_variants ∧ k ≠ " "%char ∧
       "1yrf_b.pdb" = out_path "1yrf.pdb" k ∧
       expected_records "B" Samples.two_variants =
         expected_records k Samples.two_variants ∧
       files (split_pdb "1yrf.pdb" w).2 !! "1yrf_b.pdb" =
         Some (join (expected_records "B" Samples.two_variants)) ∧
       default_records Samples.two_variants `sublist_of`
         expected_records "B" Samples.two_variants ∧
       variant_records k Samples.two_variants `sublist_of`
         expected_records "B" Samples.two_variants ∧
       length (expected_records "B" Samples.two_variants) =
         length (default_records Samples.two_variants) +
         length (variant_records k Samples.two_variants).
Proof.
  split; [by vm_compute|].
  apply (split_pdb_outputs_interleaved "1yrf.pdb" Samples.two_variants
           (Samples.disk Samples.two_variants) "1yrf_b.pdb");
    by vm_compute.
Defined.

Lemma write_event_source fn raw w p (d : string) :
  files w !! fn = Some raw →
  Write p d ∈ new_events w (split_pdb fn w).2 →
  ∃ line m, line ∈ atom_lines raw ∧ marker line = Some m ∧ d = blank_marker line.
Proof.
  intros Hfn Hin. rewrite (split_pdb_new_events _ _ _ Hfn) in Hin.
  apply elem_of_cons in Hin as [?|Hin]; [done|].
  apply list_elem_of_bind in Hin as (k & Hin & Hk).
  apply elem_of_emitted in Hk as (_ & _ & Hwf & _).
  apply elem_of_cons in Hin as [?|Hin]; [done|].
  apply list_elem_of_fmap in Hin as (d' & [= -> ->] & Hd).
  apply list_elem_of_fmap in Hd as (line & -> & Hline).
  apply list_elem_of_filter in Hline as [_ Hline].
  eapply Forall_forall in Hwf as [m Hm]; [|exact Hline].
  by exists line, m.
Qed.

(** C3.  Every record written to an output is an ATOM line of the input
    with the character in column 16 replaced by a blank: same length, a
    blank in column 16, every other column unchanged. *)
Theorem written_record_blanks_marker fn raw w p (d : string) :
  files w !! fn = Some raw →
  Write p d ∈ new_events w (split_pdb fn w).2 →
  ∃ line m, line ∈ Py.readlines raw ∧ is_atom line ∧ marker line = Some m ∧
            d = blank_marker line ∧
            String.length d = String.length line ∧
            String.get pos d = Some " "%char ∧
            ∀ i, i ≠ pos → String.get i d = String.get i line.
Proof.
  intros Hfn Hin.
  destruct (write_event_source _ _ _ _ _ Hfn Hin) as (line & m & Hline & Hm & ->).
  apply list_elem_of_filter in Hline as [Hatom Hread].
  exists line, m. split_and!; try done.
  - by eapply blank_marker_length.
  - rewrite (blank_marker_get _ _ _ Hm). by rewrite decide_True.
  - intros i Hi. rewrite (blank_marker_get _ _ _ Hm). by rewrite decide_False.
Qed.

Lemma written_record_blanks_marker_witness :
  let w := Samples.disk Samples.two_variants in
  let d := "ATOM      2  CA  LEU A  42" +:+ Samples.eol in
  files w !! "1yrf.pdb" = Some Samples.two_variants ∧
  Write "1yrf_a.pdb" d ∈ new_events w (split_pdb "1yrf.pdb" w).2 ∧
  ∃ line m, line ∈ Py.readlines Samples.two_variants ∧ is_atom line ∧
            marker line = Some m ∧ d = blank_marker line ∧
            String.length d = String.length line ∧
            String.get pos d = Some " "%char ∧
            ∀ i, i ≠ pos → String.get i d = String.get i line.
Proof.
  assert (H : Write "1yrf_a.pdb" ("ATOM      2  CA  LEU A  42" +:+ Samples.eol)
    ∈ new_events (Samples.disk Samples.two_variants)
        (split_pdb "1yrf.pdb" (Samples.disk Samples.two_variants)).2).
  { apply list_elem_of_lookup. exists 3. by vm_compute. }
  split; [by vm_compute|]. split; [exact H|].
  apply (written_record_blanks_marker "1yrf.pdb" Samples.two_variants
           (Samples.disk Samples.two_variants) "1yrf_a.pdb");
    [by vm_compute|exact H].
Defined.

Lemma emitted_nil_no_variant raw :
  (∀ line m, line ∈ atom_lines raw → marker line = Some m → m = " "%char) →
  variants raw = [].
Proof.
  intros Hall. apply elem_of_nil_inv. intros k [Hk Hne]%elem_of_variants.
  unfold markers in Hk. apply list_elem_of_omap in Hk as (line & Hl & Hm).
  by apply Hne, (Hall line).
Qed.

(** C5.  When no ATOM line carries a non-blank marker (in particular when
    there is no ATOM line), no file is opened for writing and the file
    system is left as it was; the call returns normally as soon as every
    ATOM line has a marker column. *)
Theorem no_marker_no_output fn raw w :
  files w !! fn = Some raw →
  (∀ line m, line ∈ atom_lines raw → marker line = Some m → m = " "%char) →
  new_events w (split_pdb fn w).2 = [OpenRead fn] ∧
  opened_for_writing (new_events w (split_pdb fn w).2) = [] ∧
  files (split_pdb fn w).2 = files w ∧
  (well_formed raw → (split_pdb fn w).1 = inr tt).
Proof.
  intros Hfn Hall. apply emitted_nil_no_variant in Hall.
  assert (He : emitted raw = []) by (unfold emitted; rewrite Hall; by case_decide).
  rewrite (split_pdb_new_events _ _ _ Hfn), (split_pdb_files _ _ _ Hfn),
    (split_pdb_result _ _ _ Hfn), He.
  split_and!; try done.
  intros Hwf. unfold result_of. rewrite decide_True by done.
  by rewrite decide_True by auto.
Qed.

Lemma no_marker_no_output_witness :
  let w := Samples.disk Samples.plain in
  files w !! "1yrf.pdb" = Some Samples.plain ∧
  new_events w (split_pdb "1yrf.pdb" w).2 = [OpenRead "1yrf.pdb"] ∧
  opened_for_writing (new_events w (split_pdb "1yrf.pdb" w).2) = [] ∧
  files (split_pdb "1yrf.pdb" w).2 = files w ∧
  (well_formed Samples.plain → (split_pdb "1yrf.pdb" w).1 = inr tt).
Proof.
  split; [by vm_compute|].
  apply (no_marker_no_output "1yrf.pdb" Samples.plain
           (Samples.disk Samples.plain)); [by vm_compute|].
  intros line m Hline. vm_compute in Hline.
  apply elem_of_cons in Hline as [->|Hline];
    [by intros [= <-]|].
  apply elem_of_cons in Hline as [->|Hline];
    [by intros [= <-]|].
  by apply elem_of_nil in Hline.
Defined.

Lemma opened_for_reading_variants fn raw ks :
  opened_for_reading (ks ≫= variant_events fn raw) = [].
Proof.
  induction ks as [|k ks IH]; [done|].
  csimpl. unfold opened_for_reading in *. rewrite omap_app, IH.
  simpl. rewrite app_nil_r.
  induction (expected_records k raw) as [|d l IHl]; [done|]. by csimpl.
Qed.

(** C7.  The input file is opened once, for reading, before anything is
    written, and holds the same contents after the call; every file opened
    for writing is the output of an occurring non-default marker, at a path
    different from the input's; every write goes to a file so opened; and
    all other files are untouched. *)
Theorem split_pdb_preserves_input fn raw w :
  files w !! fn = Some raw →
  files (split_pdb fn w).2 !! fn = Some raw ∧
  opened_for_reading (new_events w (split_pdb fn w).2) = [fn] ∧
  head (new_events w (split_pdb fn w).2) = Some (OpenRead fn) ∧
  (∀ p, p ∈ opened_for_writing (new_events w (split_pdb fn w).2) →
        p ≠ fn ∧ ∃ k, k ∈ markers raw ∧ k ≠ " "%char ∧ p = out_path fn k) ∧
  (∀ p d, Write p d ∈ new_events w (split_pdb fn w).2 →
          p ∈ opened_for_writing (new_events w (split_pdb fn w).2)) ∧
  (∀ p, p ∉ opened_for_writing (new_events w (split_pdb fn w).2) →
        files (split_pdb fn w).2 !! p = files w !! p).
Proof.
  intros Hfn. rewrite (split_pdb_new_events _ _ _ Hfn).
  assert (Hopen : opened_for_writing
            (OpenRead fn :: (emitted raw ≫= variant_events fn raw))
          = out_path fn <$> emitted raw)
    by apply opened_for_writing_variants.
  rewrite Hopen. split_and!.
  - rewrite (files_split_pdb _ _ _ _ Hfn).
    destruct (last_writer fn fn (emitted raw)) as [k|] eqn:Hk; [|done].
    apply last_writer_Some in Hk as [_ Hk]. by apply out_path_ne_input in Hk.
  - simpl. f_equal. apply opened_for_reading_variants.
  - done.
  - intros p (k & -> & Hk)%list_elem_of_fmap. split.
    + apply out_path_ne_input.
    + apply elem_of_emitted in Hk as (? & ? & _). eauto.
  - intros p d [?|Hin]%elem_of_cons; [done|].
    apply list_elem_of_bind in Hin as (k & Hin & Hk).
    apply elem_of_cons in Hin as [?|Hin]; [done|].
    apply list_elem_of_fmap in Hin as (d' & [= -> ->] & _).
    apply list_elem_of_fmap. eauto.
  - intros p Hp. rewrite (files_split_pdb _ _ _ _ Hfn).
    destruct (last_writer fn p (emitted raw)) as [k|] eqn:Hk; [|done].
    apply last_writer_Some in Hk as [Hk <-].
    destruct Hp. apply list_elem_of_fmap. eauto.
Qed.

Lemma split_pdb_preserves_input_witness :
  let w := Samples.disk Samples.two_variants in
  files w !! "1yrf.pdb" = Some Samples.two_variants ∧
  files (split_pdb "1yrf.pdb" w).2 !! "1yrf.pdb" = Some Samples.two_variants ∧
  opened_for_reading (new_events w (split_pdb "1yrf.pdb" w).2) = ["1yrf.pdb"].
Proof.
  pose proof (split_pdb_preserves_input "1yrf.pdb" Samples.two_variants
                (Samples.disk Samples.two_variants)) as H.
  split; [by vm_compute|].
  destruct H as (H1 & H2 & _); [by vm_compute|]. by split.
Defined.

Lemma split_pdb_input_kept fn w :
  files (split_pdb fn w).2 !! fn = files w !! fn.
Proof.
  destruct (files w !! fn) as [raw|] eqn:Hfn.
  - rewrite (files_split_pdb _ _ _ _ Hfn).
    destruct (last_writer fn fn (emitted raw)) as [k|] eqn:Hk; [|done].
    apply last_writer_Some in Hk as [_ Hk]. by apply out_path_ne_input in Hk.
  - by rewrite split_pdb_missing.
Qed.

Lemma new_events_refl w : new_events w w = [].
Proof. unfold new_events. by rewrite drop_all. Qed.

(** C4.  The result, the events and the contents of every output depend
    only on the contents of the input file; and a second call, made on the
    file system the first one left, returns the same result and leaves every
    file byte for byte as the first call left it. *)
Theorem split_pdb_deterministic fn wa wb :
  files wa !! fn = files wb !! fn →
  (split_pdb fn wa).1 = (split_pdb fn wb).1 ∧
  new_events wa (split_pdb fn wa).2 = new_events wb (split_pdb fn wb).2 ∧
  (∀ p, p ∈ opened_for_writing (new_events wa (split_pdb fn wa).2) →
        files (split_pdb fn wa).2 !! p = files (split_pdb fn wb).2 !! p) ∧
  (split_pdb fn (split_pdb fn wa).2).1 = (split_pdb fn wa).1 ∧
  files (split_pdb fn (split_pdb fn wa).2).2 = files (split_pdb fn wa).2.
Proof.
  intros Hab. pose proof (split_pdb_input_kept fn wa) as Hkept.
  destruct (files wa !! fn) as [raw|] eqn:Ha; symmetry in Hab.
  - rewrite !(split_pdb_result _ _ raw), !(split_pdb_new_events _ _ raw) by done.
    split_and!; try done.
    + intros p Hp. rewrite !(files_split_pdb _ _ raw) by done.
      destruct (last_writer fn p (emitted raw)) as [k|] eqn:Hk; [done|].
      change (OpenRead fn :: ?l) with ([OpenRead fn] ++ l) in Hp.
      unfold opened_for_writing in Hp. rewrite omap_app in Hp. simpl in Hp.
      fold (opened_for_writing (emitted raw ≫= variant_events fn raw)) in Hp.
      rewrite opened_for_writing_variants in Hp.
      apply list_elem_of_fmap in Hp as (k & -> & Hk').
      rewrite last_writer_None in Hk. by destruct (Hk k).
    + apply map_eq. intros p.
      rewrite (files_split_pdb fn (split_pdb fn wa).2 raw p Hkept).
      rewrite (files_split_pdb fn wa raw p Ha).
      by destruct (last_writer fn p (emitted raw)).
  - rewrite (split_pdb_missing fn wa), (split_pdb_missing fn wb) by done.
    simpl. rewrite (split_pdb_missing fn wa) by done.
    rewrite !new_events_refl. split_and!; try done.
    intros p Hp. by apply elem_of_nil in Hp.
Qed.

Lemma split_pdb_deterministic_witness :
  let wa := Samples.disk Samples.two_variants in
  let wb := World (<["1yrf_b.pdb" := "stale"]> (files wa)) [OpenRead "other"] in
  files wa !! "1yrf.pdb" = files wb !! "1yrf.pdb" ∧
  (split_pdb "1yrf.pdb" wa).1 = (split_pdb "1yrf.pdb" wb).1 ∧
  new_events wa (split_pdb "1yrf.pdb" wa).2 =
    new_events wb (split_pdb "1yrf.pdb" wb).2 ∧
  files (split_pdb "1yrf.pdb" (split_pdb "1yrf.pdb" wa).2).2 =
    files (split_pdb "1yrf.pdb" wa).2.
Proof.
  pose proof (split_pdb_deterministic "1yrf.pdb"
    (Samples.disk Samples.two_variants)
    (World (<["1yrf_b.pdb" := "stale"]> (files (Samples.disk Samples.two_variants)))
           [OpenRead "other"])) as H.
  split; [by vm_compute|].
  destruct H as (H1 & H2 & _ & _ & H5); [by vm_compute|]. done.
Defined.

(** C9 as amended.  When every ATOM line has a marker column, some ATOM
    line has a non-blank marker and none has a blank one, the call raises
    KeyError, opens no file for writing and leaves the file system as it
    was. *)
Theorem missing_default_raises_KeyError fn raw w :
  files w !! fn = Some raw →
  well_formed raw →
  (∃ line m, line ∈ atom_lines raw ∧ marker line = Some m ∧ m ≠ " "%char) →
  (∀ line, line ∈ atom_lines raw → marker line ≠ Some " "%char) →
  (split_pdb fn w).1 = inl KeyError ∧
  opened_for_writing (new_events w (split_pdb fn w).2) = [] ∧
  files (split_pdb fn w).2 = files w.
Proof.
  intros Hfn Hwf (line & m & Hline & Hm & Hne) Hnone.
  assert (Hdef : " "%char ∉ markers raw).
  { intros (l & Hl & Hml)%list_elem_of_omap. by apply (Hnone l). }
  assert (Hvar : m ∈ variants raw).
  { apply elem_of_variants. split; [|done]. apply list_elem_of_omap. eauto. }
  assert (He : emitted raw = []) by (unfold emitted; rewrite decide_False; tauto).
  rewrite (split_pdb_new_events _ _ _ Hfn), (split_pdb_files _ _ _ Hfn),
    (split_pdb_result _ _ _ Hfn), He.
  split_and!; try done.
  unfold result_of. rewrite decide_True by done.
  rewrite decide_False; [done|]. intros [Hnil|?]; [|done].
  rewrite Hnil in Hvar. by apply elem_of_nil in Hvar.
Qed.

Lemma missing_default_raises_KeyError_witness :
  let w := Samples.disk Samples.no_default in
  files w !! "1yrf.pdb" = Some Samples.no_default ∧
  well_formed Samples.no_default ∧
  (split_pdb "1yrf.pdb" w).1 = inl KeyError ∧
  opened_for_writing (new_events w (split_pdb "1yrf.pdb" w).2) = [] ∧
  files (split_pdb "1yrf.pdb" w).2 = files w.
Proof.
  assert (Hlines : atom_lines Samples.no_default =
                   ["ATOM      1  CA ALEU A  42" +:+ Samples.eol])
    by (by vm_compute).
  assert (Hwf : well_formed Samples.no_default).
  { apply (bool_decide_unpack _). by vm_compute. }
  split; [by vm_compute|]. split; [exact Hwf|].
  apply (missing_default_raises_KeyError "1yrf.pdb" Samples.no_default
           (Samples.disk Samples.no_default)); [by vm_compute|exact Hwf| |].
  - exists ("ATOM      1  CA ALEU A  42" +:+ Samples.eol), "A"%char.
    rewrite Hlines. split_and!; [left|by vm_compute|done].
  - intros line. rewrite Hlines. intros ->%list_elem_of_singleton.
    by vm_compute.
Defined.

(** C9 as stated fails: with an ATOM line too short to have a marker column
    in the file, the first loop raises IndexError before the default group
    is ever looked up. *)
Lemma missing_default_IndexError_first :
  ¬ (∀ fn raw w,
       files w !! fn = Some raw →
       (∃ line m, line ∈ atom_lines raw ∧ marker line = Some m ∧ m ≠ " "%char) →
       (∀ line, line ∈ atom_lines raw → marker line ≠ Some " "%char) →
       (split_pdb fn w).1 = inl KeyError ∧
       opened_for_writing (new_events w (split_pdb fn w).2) = []).
Proof.
  intros H.
  assert (Hlines : atom_lines Samples.truncated =
            ["ATOM      1  CA ALEU A  42" +:+ Samples.eol; "ATOM" +:+ Samples.eol])
    by (by vm_compute).
  destruct (H "1yrf.pdb" Samples.truncated (Samples.disk Samples.truncated))
    as [Hres _].
  - by vm_compute.
  - exists ("ATOM      1  CA ALEU A  42" +:+ Samples.eol), "A"%char.
    rewrite Hlines. split_and!; [left|by vm_compute|done].
  - intros line. rewrite Hlines.
    intros [->| ->%list_elem_of_singleton]%elem_of_cons; by vm_compute.
  - vm_compute in Hres. discriminate Hres.
Qed.

Lemma summary_atom_lines raw1 raw2 :
  atom_lines raw1 = atom_lines raw2 →
  result_of raw1 = result_of raw2 ∧ emitted raw1 = emitted raw2 ∧
  ∀ k, expected_records k raw1 = expected_records k raw2.
Proof.
  intros H.
  assert (Hm : markers raw1 = markers raw2) by (unfold markers; by rewrite H).
  assert (Hv : variants raw1 = variants raw2) by (unfold variants; by rewrite Hm).
  assert (Hw : well_formed raw1 ↔ well_formed raw2)
    by (unfold well_formed; by rewrite H).
  split_and!.
  - unfold result_of. rewrite Hv, Hm.
    destruct (decide (well_formed raw1)), (decide (well_formed raw2)); tauto.
  - unfold emitted. rewrite Hv, Hm.
    destruct (decide (well_formed raw1 ∧ _)), (decide (well_formed raw2 ∧ _)); tauto.
  - intros k. unfold expected_records. by rewrite H.
Qed.

(** C6 as amended.  Lines that do not start with ATOM are silently skipped:
    two inputs with the same ATOM lines give the same result and the same
    writes, and every record written starts with ATOM.  A line that starts
    with ATOM is always read: the call raises IndexError exactly when such a
    line has no column 16. *)
Theorem non_atom_lines_skipped fn raw1 raw2 w1 w2 :
  files w1 !! fn = Some raw1 →
  files w2 !! fn = Some raw2 →
  atom_lines raw1 = atom_lines raw2 →
  (split_pdb fn w1).1 = (split_pdb fn w2).1 ∧
  new_events w1 (split_pdb fn w1).2 = new_events w2 (split_pdb fn w2).2 ∧
  (∀ p d, Write p d ∈ new_events w1 (split_pdb fn w1).2 → is_atom d) ∧
  ((split_pdb fn w1).1 = inl IndexError ↔
   ∃ line, line ∈ Py.readlines raw1 ∧ is_atom line ∧ String.length line ≤ pos).
Proof.
  intros H1 H2 Hlines.
  destruct (summary_atom_lines _ _ Hlines) as (Hres & Hem & Hexp).
  split_and!.
  - by rewrite (split_pdb_result _ _ _ H1), (split_pdb_result _ _ _ H2).
  - rewrite (split_pdb_new_events _ _ _ H1), (split_pdb_new_events _ _ _ H2).
    rewrite Hem. f_equal. apply list_bind_ext; [|done].
    intros k. unfold variant_events. by rewrite Hexp.
  - intros p d Hd.
    destruct (write_event_source _ _ _ _ _ H1 Hd)
      as (line & m & [Hatom _]%list_elem_of_filter & Hm & ->).
    by eapply blank_marker_is_atom.
  - rewrite (split_pdb_result _ _ _ H1). unfold result_of. split.
    + destruct (decide (well_formed raw1)) as [|Hwf]; [by case_decide|].
      intros _. apply not_Forall_Exists in Hwf; [|apply _].
      apply Exists_exists in Hwf as (line & Hline & Hm).
      apply list_elem_of_filter in Hline as [Hatom Hline].
      exists line. split_and!; [done..|].
      apply get_None. by apply eq_None_not_Some.
    + intros (line & Hline & Hatom & Hlen).
      rewrite decide_False; [done|]. intros Hwf.
      eapply Forall_forall in Hwf; [|by apply list_elem_of_filter].
      apply get_is_Some in Hwf. lia.
Qed.

Lemma non_atom_lines_skipped_witness :
  let raw1 := Samples.two_variants in
  let raw2 := "REMARK" +:+ Samples.eol +:+ Samples.two_variants in
  files (Samples.disk raw1) !! "1yrf.pdb" = Some raw1 ∧
  files (Samples.disk raw2) !! "1yrf.pdb" = Some raw2 ∧
  atom_lines raw1 = atom_lines raw2 ∧
  (split_pdb "1yrf.pdb" (Samples.disk raw1)).1 =
    (split_pdb "1yrf.pdb" (Samples.disk raw2)).1 ∧
  new_events (Samples.disk raw1) (split_pdb "1yrf.pdb" (Samples.disk raw1)).2 =
    new_events (Samples.disk raw2) (split_pdb "1yrf.pdb" (Samples.disk raw2)).2.
Proof.
  pose proof (non_atom_lines_skipped "1yrf.pdb" Samples.two_variants
    ("REMARK" +:+ Samples.eol +:+ Samples.two_variants)
    (Samples.disk Samples.two_variants)
    (Samples.disk ("REMARK" +:+ Samples.eol +:+ Samples.two_variants))) as H.
  split; [by vm_compute|]. split; [by vm_compute|]. split; [by vm_compute|].
  destruct H as (H1 & H2 & _); by vm_compute.
Defined.

(** C6 as stated fails: a line that does not match the fixed-width layout
    is not always skipped.  A file holding only the four characters ATOM and
    a file holding nothing have the same well-laid-out lines (none), yet
    the first makes the call raise and the second does not. *)
Lemma malformed_atom_line_not_skipped :
  ¬ (∀ fn raw1 raw2 w1 w2,
       files w1 !! fn = Some raw1 →
       files w2 !! fn = Some raw2 →
       filter fixed_width (Py.readlines raw1) =
         filter fixed_width (Py.readlines raw2) →
       (split_pdb fn w1).1 = (split_pdb fn w2).1).
Proof.
  intros H.
  specialize (H "1yrf.pdb" Samples.short_line ""
                (Samples.disk Samples.short_line) (Samples.disk "")).
  assert (Hres : (split_pdb "1yrf.pdb" (Samples.disk Samples.short_line)).1 =
                 (split_pdb "1yrf.pdb" (Samples.disk "")).1)
    by (apply H; by vm_compute).
  vm_compute in Hres. discriminate Hres.
Qed.

Lemma result_ok_emitted raw : result_of raw = inr tt → emitted raw = variants raw.
Proof.
  unfold result_of, emitted. destruct (decide (well_formed raw)); [|done].
  case_decide as Hv; [|done]. intros _. destruct Hv as [Hv|Hv].
  - rewrite Hv. by case_decide.
  - by rewrite decide_True.
Qed.

Lemma opened_split_pdb fn raw w :
  files w !! fn = Some raw →
  opened_for_writing (new_events w (split_pdb fn w).2) = out_path fn <$> emitted raw.
Proof.
  intros Hfn. rewrite (split_pdb_new_events _ _ _ Hfn).
  apply opened_for_writing_variants.
Qed.

#[local] Instance out_path_tail_inj fn :
  Inj (=) (=) (λ c : ascii, Py.drop_last 4 fn +:+ "_" +:+ Py.chr c +:+ ".pdb").
Proof. intros c1 c2 H. apply (inj (String.app _)) in H. by injection H. Qed.

(** C2 as amended.  When the call returns normally, one output is written
    per distinct non-default marker, and the number of distinct output files
    is the number of distinct lower-cased non-default markers; it equals the
    number of distinct non-default markers when no two of them differ only
    in letter case. *)
Theorem output_count fn raw w :
  files w !! fn = Some raw →
  (split_pdb fn w).1 = inr tt →
  length (opened_for_writing (new_events w (split_pdb fn w).2)) =
    length (remove_dups (non_default (markers raw))) ∧
  length (remove_dups (opened_for_writing (new_events w (split_pdb fn w).2))) =
    length (remove_dups (Py.lower <$> non_default (markers raw))) ∧
  ((∀ a b, a ∈ markers raw → b ∈ markers raw → Py.lower a = Py.lower b → a = b) →
   length (remove_dups (opened_for_writing (new_events w (split_pdb fn w).2))) =
     length (remove_dups (non_default (markers raw)))).
Proof.
  intros Hfn Hok. rewrite (split_pdb_result _ _ _ Hfn) in Hok.
  rewrite (opened_split_pdb _ _ _ Hfn), (result_ok_emitted _ Hok).
  assert (Helem : ∀ x, x ∈ variants raw ↔ x ∈ non_default (markers raw)).
  { intros x. rewrite elem_of_variants. unfold non_default.
    rewrite list_elem_of_filter. tauto. }
  assert (Hlen : length (variants raw) =
                 length (remove_dups (non_default (markers raw))))
    by (apply length_remove_dups_NoDup; [apply NoDup_variants|done]).
  assert (Hlow : length (remove_dups (out_path fn <$> variants raw)) =
                 length (remove_dups (Py.lower <$> non_default (markers raw)))).
  { change (out_path fn) with
      ((λ c : ascii, Py.drop_last 4 fn +:+ "_" +:+ Py.chr c +:+ ".pdb") ∘ Py.lower).
    rewrite list_fmap_compose, length_remove_dups_fmap_inj by apply _.
    apply Permutation_length, NoDup_Permutation; [apply NoDup_remove_dups..|].
    intros x. rewrite !elem_of_remove_dups, !list_elem_of_fmap.
    by setoid_rewrite Helem. }
  split_and!.
  - by rewrite length_fmap.
  - done.
  - intros Hinj. rewrite Hlow.
    assert (Hnd : NoDup (Py.lower <$> variants raw)).
    { apply NoDup_fmap_2_strong; [|apply NoDup_variants].
      intros a b [Ha _]%elem_of_variants [Hb _]%elem_of_variants. by apply Hinj. }
    rewrite <-Hlen. trans (length (Py.lower <$> variants raw));
      [|by rewrite length_fmap].
    symmetry. apply length_remove_dups_NoDup; [done|].
    intros x. rewrite !list_elem_of_fmap. by setoid_rewrite Helem.
Qed.

Lemma output_count_witness :
  let w := Samples.disk Samples.case_clash in
  files w !! "1yrf.pdb" = Some Samples.case_clash ∧
  (split_pdb "1yrf.pdb" w).1 = inr tt ∧
  length (opened_for_writing (new_events w (split_pdb "1yrf.pdb" w).2)) =
    length (remove_dups (non_default (markers Samples.case_clash))) ∧
  length (remove_dups
            (opened_for_writing (new_events w (split_pdb "1yrf.pdb" w).2))) =
    length (remove_dups (Py.lower <$> non_default (markers Samples.case_clash))).
Proof.
  pose proof (output_count "1yrf.pdb" Samples.case_clash
                (Samples.disk Samples.case_clash)) as H.
  split; [by vm_compute|]. split; [by vm_compute|].
  destruct H as (H1 & H2 & _); by vm_compute.
Defined.

(** C2 as stated fails: with a marked atom and no default group the call
    stops on the KeyError with no output for the one marker present. *)
Lemma output_count_without_default :
  ¬ (∀ fn raw w,
       files w !! fn = Some raw →
       length (remove_dups
                 (opened_for_writing (new_events w (split_pdb fn w).2))) =
         length (remove_dups (non_default (markers raw)))).
Proof.
  intros H.
  specialize (H "1yrf.pdb" Samples.no_default (Samples.disk Samples.no_default)).
  assert (Hlen : 0 = 1) by (apply H; by vm_compute).
  discriminate Hlen.
Qed.

Lemma lower_blank m : Py.lower m = " "%char → m = " "%char.
Proof.
  intros H. apply (f_equal nat_of_ascii) in H. rewrite lower_nat in H.
  apply nat_of_ascii_inj. change (nat_of_ascii " ") with 32 in *.
  case_decide; lia.
Qed.

Lemma variants_split raw l1 l2 :
  atom_lines raw = l1 ++ l2 →
  variants raw =
    non_default (nub (omap marker l1)) ++
    non_default (filter (λ x, x ∉ omap marker l1) (nub (omap marker l2))).
Proof.
  intros H. unfold variants, markers, non_default.
  by rewrite H, omap_app, nub_app, filter_app.
Qed.

(** C10.  Whatever is opened for writing is the output of an occurring
    non-default marker [m], at the path made of the input name without its
    last four characters, an underscore, the lower-case form of [m] and
    [.pdb], and receives the records of [m]; in a call that returns normally
    every such marker is written so.  Two markers with the same lower-case
    form therefore share a path; when they are distinct, the one first seen
    later in the file is written later, and the file ends up holding its
    records. *)
Theorem output_path_lowercases_marker fn raw w :
  files w !! fn = Some raw →
  (∀ p, p ∈ opened_for_writing (new_events w (split_pdb fn w).2) →
     ∃ m pre post,
       m ∈ markers raw ∧ m ≠ " "%char ∧
       p = Py.drop_last 4 fn +:+ "_" +:+ Py.chr (Py.lower m) +:+ ".pdb" ∧
       new_events w (split_pdb fn w).2 =
         pre ++ OpenWrite p :: (Write p <$> expected_records m raw) ++ post) ∧
  ((split_pdb fn w).1 = inr tt →
   ∀ m, m ∈ markers raw → m ≠ " "%char →
     Py.drop_last 4 fn +:+ "_" +:+ Py.chr (Py.lower m) +:+ ".pdb"
       ∈ opened_for_writing (new_events w (split_pdb fn w).2)) ∧
  (∀ base ext m, fn = base +:+ ext → String.length ext = 4 →
     out_path fn m = base +:+ "_" +:+ Py.chr (Py.lower m) +:+ ".pdb") ∧
  (∀ m1 m2, Py.lower m1 = Py.lower m2 → out_path fn m1 = out_path fn m2) ∧
  ((split_pdb fn w).1 = inr tt →
   ∀ m1 m2 l1 l2,
     m1 ≠ m2 → Py.lower m1 = Py.lower m2 →
     atom_lines raw = l1 ++ l2 →
     m1 ∈ omap marker l1 → m2 ∉ omap marker l1 → m2 ∈ omap marker l2 →
     files (split_pdb fn w).2 !! out_path fn m1 =
       Some (join (expected_records m2 raw)) ∧
     written_records (new_events w (split_pdb fn w).2) !! out_path fn m1 =
       Some (expected_records m2 raw) ∧
     ∃ pre mid post,
       new_events w (split_pdb fn w).2 =
         pre ++ variant_events fn raw m1 ++ mid ++
         variant_events fn raw m2 ++ post).
Proof.
  intros Hfn.
  pose proof (λ p, written_records_split_pdb fn w raw p Hfn) as Hrecs.
  rewrite (opened_split_pdb _ _ _ Hfn), (split_pdb_result _ _ _ Hfn).
  rewrite (split_pdb_new_events _ _ _ Hfn) in Hrecs |- *.
  split_and!.
  - intros p (m & -> & Hin)%list_elem_of_fmap.
    pose proof (elem_of_emitted _ _ Hin) as (Hm & Hne & _).
    apply list_elem_of_split in Hin as (ks1 & ks2 & ->).
    exists m, (OpenRead fn :: (ks1 ≫= variant_events fn raw)),
           (ks2 ≫= variant_events fn raw).
    split_and!; try done.
    rewrite bind_app. csimpl. by rewrite <-?(assoc_L (++)).
  - intros Hok m Hm Hne. rewrite (result_ok_emitted _ Hok).
    apply list_elem_of_fmap. exists m. split; [done|].
    by apply elem_of_variants.
  - intros base ext m -> Hext. by apply out_path_base.
  - intros m1 m2. apply out_path_eq.
  - intros Hok m1 m2 l1 l2 Hne Hlow Hsplit H1 H2 H3.
    pose proof (result_ok_emitted _ Hok) as Hem. rewrite Hem in Hrecs |- *.
    assert (Hb1 : m1 ≠ " "%char).
    { intros ->. apply Hne. symmetry. by apply lower_blank. }
    assert (Hb2 : m2 ≠ " "%char).
    { intros ->. apply Hne. by apply lower_blank. }
    pose proof (NoDup_variants raw) as Hnd.
    rewrite (variants_split _ _ _ Hsplit) in Hnd, Hrecs |- *.
    set (A := non_default (nub (omap marker l1))) in *.
    set (B := non_default (filter (λ x, x ∉ omap marker l1)
                             (nub (omap marker l2)))) in *.
    assert (HA : m1 ∈ A).
    { apply list_elem_of_filter. split; [done|]. by apply elem_of_nub. }
    assert (HB : m2 ∈ B).
    { apply list_elem_of_filter. split; [done|].
      apply list_elem_of_filter. split; [done|]. by apply elem_of_nub. }
    assert (Hlast : last_writer fn (out_path fn m1) (A ++ B) = Some m2).
    { unfold last_writer. rewrite filter_app, last_app.
      destruct (last (filter _ B)) as [k|] eqn:Hk.
      - apply last_Some_elem_of, list_elem_of_filter in Hk as [Hp Hk].
        apply out_path_eq in Hp.
        destruct (lower_fibre k m1 m2 Hne Hlow) as [->| ->];
          [congruence| |done].
        apply NoDup_app in Hnd as (_ & Hdisj & _). by destruct (Hdisj m1).
      - apply last_None in Hk.
        assert (Hin : m2 ∈ filter (λ k, out_path fn k = out_path fn m1) B).
        { apply list_elem_of_filter. split; [|done]. by apply out_path_eq. }
        rewrite Hk in Hin. by apply elem_of_nil in Hin. }
    split_and!.
    + rewrite (files_split_pdb _ _ _ _ Hfn), Hem,
        (variants_split _ _ _ Hsplit). fold A B. by rewrite Hlast.
    + by rewrite Hrecs, Hlast.
    + apply list_elem_of_split in HA as (A1 & A2 & ->).
      apply list_elem_of_split in HB as (B1 & B2 & ->).
      exists (OpenRead fn :: (A1 ≫= variant_events fn raw)),
             ((A2 ≫= variant_events fn raw) ++ (B1 ≫= variant_events fn raw)),
             (B2 ≫= variant_events fn raw).
      rewrite !bind_app. csimpl. rewrite ?bind_app. csimpl.
      do 3 (simpl; rewrite <-?(assoc_L (++))). done.
Qed.

Lemma output_path_lowercases_marker_witness :
  let w := Samples.disk Samples.case_clash in
  files w !! "1yrf.pdb" = Some Samples.case_clash ∧
  (split_pdb "1yrf.pdb" w).1 = inr tt ∧
  out_path "1yrf.pdb" "A" = "1yrf_a.pdb" ∧
  files (split_pdb "1yrf.pdb" w).2 !! out_path "1yrf.pdb" "A" =
    Some (join (expected_records "a" Samples.case_clash)).
Proof.
  pose proof (output_path_lowercases_marker "1yrf.pdb" Samples.case_clash
                (Samples.disk Samples.case_clash)) as H.
  split; [by vm_compute|]. split; [by vm_compute|].
  destruct H as (_ & _ & Hbase & _ & Hclash); [by vm_compute|].
  split.
  - apply (Hbase "1yrf" ".pdb"); by vm_compute.
  - apply (Hclash eq_refl "A"%char "a"%char
      ["ATOM      1  N   LEU A  42" +:+ Samples.eol;
       "ATOM      2  CA ALEU A  42" +:+ Samples.eol]
      ["ATOM      3  CA aLEU A  42" +:+ Samples.eol]);
      [done|by vm_compute|by vm_compute| | |].
    + apply list_elem_of_lookup. exists 1. by vm_compute.
    + apply (bool_decide_unpack _). by vm_compute.
    + apply list_elem_of_lookup. exists 0. by vm_compute.
Defined.

End splitter.

(** ** The simulation driver: properties *)

Section driver.

Import Driver.

(** C8.  Whatever reporters the simulation had before, the driver calls the
    engine's energy minimisation and, after it, one run of exactly 3000
    steps; the reporters attached during that run are the trajectory
    reporter on [traj.dcd] with interval 10, the console reporter, and the
    scalar reporter on [scalars.csv] with interval 10 whose columns are
    exactly step, time, potential energy, total energy and temperature. *)
Theorem driver_minimizes_then_steps (s : simulation) :
  ∃ traj console scalars,
    calls (driver s) =
      calls s ++ [SetPositions; MinimizeEnergy 100; GetPositions;
                  WriteFile "init.pdb"; Step 3000 [traj; console; scalars]] ∧
    reporters (driver s) = [traj; console; scalars] ∧
    is_trajectory traj ∧ writes_to "traj.dcd" traj ∧ interval traj = 10 ∧
    console = StateDataReporter Stdout 100
                [("step", true); ("temperature", true); ("elapsedTime", true)] ∧
    writes_to "scalars.csv" scalars ∧ interval scalars = 10 ∧
    columns scalars =
      ["step"; "time"; "potentialEnergy"; "totalEnergy"; "temperature"].
Proof.
  destruct s as [rs cs]. do 3 eexists. split_and!; try reflexivity; try exact I.
  unfold driver, run, prepare, step, engine, append_reporter, set_reporters,
    writeFile, getPositions, minimizeEnergy, setPositions, engine. simpl.
  rewrite <-!(assoc_L (++)). reflexivity.
Qed.

End driver.

(** ** Further properties of the splitter *)

Section outcomes.

Implicit Types (fn raw p : string) (w : world) (k m : ascii).








End outcomes.

Section outputs.

Implicit Types (fn raw p : string) (w : world) (k m : ascii).

(** X3.  After a call that returns normally, the output path of every
    occurring non-default marker [m] names a file that holds the complete
    records of a marker with the lower-case form of [m]: those of [m] itself
    when no other occurring marker has that lower-case form.  What the path
    held before does not matter. *)
Theorem variant_file_holds_variant fn raw w m :
  files w !! fn = Some raw →
  (split_pdb fn w).1 = inr tt →
  m ∈ markers raw → m ≠ " "%char →
  (∃ k, k ∈ markers raw ∧ Py.lower k = Py.lower m ∧
        files (split_pdb fn w).2 !! out_path fn m =
          Some (join (expected_records k raw))) ∧
  ((∀ k, k ∈ markers raw → Py.lower k = Py.lower m → k = m) →
   files (split_pdb fn w).2 !! out_path fn m =
     Some (join (expected_records m raw))).
Proof.
  intros Hfn Hok Hm Hne. rewrite (split_pdb_result _ _ _ Hfn) in Hok.
  rewrite (files_split_pdb _ _ _ _ Hfn), (result_ok_emitted _ Hok).
  destruct (last_writer fn (out_path fn m) (variants raw)) as [k|] eqn:Hk.
  - apply last_writer_Some in Hk as [[Hk _]%elem_of_variants Hp].
    apply out_path_eq in Hp. split; [by eauto|].
    intros Honly. by rewrite (Honly k Hk Hp).
  - rewrite last_writer_None in Hk. destruct (Hk m); [|done].
    by apply elem_of_variants.
Qed.

Lemma variant_file_holds_variant_witness :
  let w := World (<["1yrf_b.pdb" := "stale"]> (files (Samples.disk Samples.two_variants))) [] in
  files w !! "1yrf.pdb" = Some Samples.two_variants ∧
  files (split_pdb "1yrf.pdb" w).2 !! out_path "1yrf.pdb" "B" =
    Some (join (expected_records "B" Samples.two_variants)).
Proof.
  pose proof (variant_file_holds_variant "1yrf.pdb" Samples.two_variants
    (World (<["1yrf_b.pdb" := "stale"]> (files (Samples.disk Samples.two_variants))) [])
    "B"%char) as H.
  split; [by vm_compute|].
  destruct H as (_ & H); [by vm_compute|by vm_compute| |done|].
  - apply list_elem_of_lookup. exists 2. by vm_compute.
  - apply H. intros k Hk. vm_compute in Hk.
    repeat (apply elem_of_cons in Hk as [->|Hk]; [by vm_compute|]).
    by apply elem_of_nil in Hk.
Defined.

(** X4.  Outputs are written in the order in which their markers first
    appear in the input: if [m1] occurs before the first occurrence of
    [m2], the file of [m1] is opened and written in full before the file of
    [m2] is opened. *)
Theorem outputs_follow_first_occurrence fn raw w m1 m2 (l1 l2 : list string) :
  files w !! fn = Some raw →
  (split_pdb fn w).1 = inr tt →
  atom_lines raw = l1 ++ l2 →
  m1 ≠ " "%char → m2 ≠ " "%char →
  m1 ∈ omap marker l1 → m2 ∉ omap marker l1 → m2 ∈ omap marker l2 →
  ∃ pre mid post,
    new_events w (split_pdb fn w).2 =
      pre ++ (OpenWrite (out_path fn m1)
                :: (Write (out_path fn m1) <$> expected_records m1 raw)) ++
      mid ++ (OpenWrite (out_path fn m2)
                :: (Write (out_path fn m2) <$> expected_records m2 raw)) ++
      post.
Proof.
  intros Hfn Hok Hsplit Hb1 Hb2 H1 H2 H3.
  rewrite (split_pdb_result _ _ _ Hfn) in Hok.
  rewrite (split_pdb_new_events _ _ _ Hfn), (result_ok_emitted _ Hok).
  rewrite (variants_split _ _ _ Hsplit).
  set (A := non_default (nub (omap marker l1))).
  set (B := non_default (filter (λ x, x ∉ omap marker l1)
                           (nub (omap marker l2)))).
  assert (HA : m1 ∈ A).
  { apply list_elem_of_filter. split; [done|]. by apply elem_of_nub. }
  assert (HB : m2 ∈ B).
  { apply list_elem_of_filter. split; [done|].
    apply list_elem_of_filter. split; [done|]. by apply elem_of_nub. }
  apply list_elem_of_split in HA as (A1 & A2 & ->).
  apply list_elem_of_split in HB as (B1 & B2 & ->).
  exists (OpenRead fn :: (A1 ≫= variant_events fn raw)),
         ((A2 ≫= variant_events fn raw) ++ (B1 ≫= variant_events fn raw)),
         (B2 ≫= variant_events fn raw).
  rewrite !bind_app. csimpl. rewrite ?bind_app. csimpl.
  unfold variant_events at 2 4.
  do 3 (simpl; rewrite <-?(assoc_L (++))). done.
Qed.

Lemma outputs_follow_first_occurrence_witness :
  let w := Samples.disk Samples.two_variants in
  files w !! "1yrf.pdb" = Some Samples.two_variants ∧
  (split_pdb "1yrf.pdb" w).1 = inr tt ∧
  ∃ pre mid post,
    new_events w (split_pdb "1yrf.pdb" w).2 =
      pre ++ (OpenWrite (out_path "1yrf.pdb" "A")
                :: (Write (out_path "1yrf.pdb" "A")
                      <$> expected_records "A" Samples.two_variants)) ++
      mid ++ (OpenWrite (out_path "1yrf.pdb" "B")
                :: (Write (out_path "1yrf.pdb" "B")
                      <$> expected_records "B" Samples.two_variants)) ++
      post.
Proof.
  split; [by vm_compute|]. split; [by vm_compute|].
  apply (outputs_follow_first_occurrence "1yrf.pdb" Samples.two_variants
           (Samples.disk Samples.two_variants) "A"%char "B"%char
           ["ATOM      1  N   LEU A  42" +:+ Samples.eol;
            "ATOM      2  CA ALEU A  42" +:+ Samples.eol]
           ["ATOM      3  CA BLEU A  42" +:+ Samples.eol;
            "ATOM      4  C   LEU A  42" +:+ Samples.eol]);
    [by vm_compute|by vm_compute|by vm_compute|done|done| | |].
  - apply list_elem_of_lookup. exists 1. by vm_compute.
  - apply (bool_decide_unpack _). by vm_compute.
  - apply list_elem_of_lookup. exists 0. by vm_compute.
Defined.

End outputs.

(** ** The dictionary the first loop builds *)

Section dictionary.

Implicit Types (g : groups_t) (rs : list record).

Lemma tag_length c (ls : list string) rs : tag c ls = Some rs → length rs = length ls.
Proof.
  revert c rs. induction ls as [|l ls IH]; intros c rs; simpl.
  - by intros [= <-].
  - destruct (marker l); [|done].
    destruct (tag (S c) ls) as [rs'|] eqn:Hrs; [|done].
    intros [= <-]. simpl. f_equal. by eapply IH.
Qed.

Lemma tag_items c (ls : list string) rs :
  tag c ls = Some rs → rs.*2 = imap (λ i l, (c + i, blank_marker l)) ls.
Proof.
  revert c rs. induction ls as [|l ls IH]; intros c rs; simpl.
  - by intros [= <-].
  - destruct (marker l); [|done].
    destruct (tag (S c) ls) as [rs'|] eqn:Hrs; [|done].
    intros [= <-]. csimpl. rewrite Nat.add_0_r. f_equal.
    rewrite (IH _ _ Hrs). apply imap_ext. intros i x _. simpl.
    f_equal. lia.
Qed.

Lemma concat_setdefault_append k it g :
  concat (setdefault_append k it g).*2 ≡ₚ concat g.*2 ++ [it].
Proof.
  induction g as [|[k' v] g IH]; csimpl; [done|].
  destruct (decide (k' = k)); csimpl.
  - rewrite <-!(assoc_L (++)). f_equiv. apply Permutation_app_comm.
  - by rewrite IH, (assoc_L (++)).
Qed.

Lemma concat_build rs g : concat (build rs g).*2 ≡ₚ concat g.*2 ++ rs.*2.
Proof.
  revert g. induction rs as [|r rs IH]; intros g.
  - simpl. by rewrite app_nil_r.
  - rewrite build_cons, IH, concat_setdefault_append. csimpl.
    by rewrite <-(assoc_L (++)).
Qed.

(** X5.  What the first loop leaves in [groups] when it completes: the
    counter is the number of ATOM lines; the keys are distinct; the items
    of all groups together are exactly the ATOM lines, each once, numbered
    in file order and with the marker blanked; and the group of a key is
    never empty, lists the lines of that marker in file order, and has
    strictly increasing counters. *)
Theorem read_loop_groups (lines : list string) g (c : nat) :
  read_loop lines [] 0 = inr (g, c) →
  c = length (filter is_atom lines) ∧
  NoDup g.*1 ∧
  concat g.*2 ≡ₚ imap (λ i l, (i, blank_marker l)) (filter is_atom lines) ∧
  ∀ k items, (k, items) ∈ g →
    items ≠ [] ∧ getitem k g = Some items ∧
    items.*2 = blank_marker <$>
                 filter (λ l, marker l = Some k) (filter is_atom lines) ∧
    StronglySorted lt items.*1.
Proof.
  rewrite read_loop_tag.
  destruct (tag 0 (filter is_atom lines)) as [rs|] eqn:Htag; [|done].
  intros [= <- <-].
  assert (Hnd : NoDup (build rs []).*1)
    by (rewrite keys_build_nil; apply NoDup_nub).
  split_and!.
  - simpl. by eapply tag_length.
  - done.
  - rewrite concat_build, (tag_items _ _ _ Htag). done.
  - intros k items Hin.
    pose proof (getitem_items _ _ _ Hnd Hin) as Hget.
    pose proof Hget as Hget'. rewrite getitem_build_nil in Hget'.
    assert (Hitems : items = (filter (λ r : record, r.1 = k) rs).*2 ∧ items ≠ []).
    { destruct ((filter (λ r : record, r.1 = k) rs).*2); [done|].
      injection Hget' as <-. done. }
    destruct Hitems as [-> Hne]. split_and!; try done.
    + apply (tag_filter (λ m, m = k) (λ l, marker l = Some k) 0); [|done].
      intros l m ->. naive_solver.
    + destruct (tag_counters _ _ _ Htag) as [_ Hs].
      apply (StronglySorted_filter_snd (λ r : record, r.1 = k)) in Hs.
      by apply (StronglySorted_fmap fst _ lt) in Hs.
Qed.

Lemma read_loop_groups_witness :
  ∃ g c, read_loop (Py.readlines Samples.two_variants) [] 0 = inr (g, c) ∧
         c = 4 ∧ NoDup g.*1.
Proof.
  eexists _, _. split; [by vm_compute|].
  match goal with
  | |- ?c = _ ∧ NoDup (?g).*1 =>
      destruct (read_loop_groups (Py.readlines Samples.two_variants) g c)
        as (Hc & Hnd & _); [by vm_compute|]
  end.
  split; [|exact Hnd]. rewrite Hc. by vm_compute.
Defined.

End dictionary.

(** ** The cell that calls the splitter: properties *)

Section caller.

Implicit Types (raw : string) (w : world) (k : ascii).

Lemma load_structure_unfold w :
  load_structure w =
    match (split_pdb "1yrf.pdb" w).1 with
    | inl e => (inl e, (split_pdb "1yrf.pdb" w).2)
    | inr _ => open_read "1yrf_a.pdb" (split_pdb "1yrf.pdb" w).2
    end.
Proof.
  unfold load_structure, mbind, io_bind.
  by destruct (split_pdb "1yrf.pdb" w) as [[e|u] w1].
Qed.

Lemma out_path_1yrf k :
  out_path "1yrf.pdb" k = "1yrf_a.pdb" ↔ Py.lower k = "a"%char.
Proof.
  change "1yrf_a.pdb" with (out_path "1yrf.pdb" "a"). apply out_path_eq.
Qed.

(** X6.  When the input has a marker whose lower-case form is [a] (that is,
    [A] or [a]) and no second one, and the splitter returns normally, the
    cell loads exactly the records of that variant, whatever [1yrf_a.pdb]
    held before. *)
Theorem load_structure_reads_variant raw w k :
  files w !! "1yrf.pdb" = Some raw →
  (split_pdb "1yrf.pdb" w).1 = inr tt →
  k ∈ markers raw → Py.lower k = "a"%char →
  (∀ k', k' ∈ markers raw → Py.lower k' = "a"%char → k' = k) →
  (load_structure w).1 = inr (join (expected_records k raw)).
Proof.
  intros Hfn Hok Hk Hlow Honly. rewrite load_structure_unfold, Hok.
  rewrite (split_pdb_result _ _ _ Hfn) in Hok.
  assert (Hne : k ≠ " "%char) by (intros ->; by vm_compute in Hlow).
  assert (Hfile : files (split_pdb "1yrf.pdb" w).2 !! "1yrf_a.pdb" =
                  Some (join (expected_records k raw))).
  { rewrite (files_split_pdb _ _ _ _ Hfn), (result_ok_emitted _ Hok).
    destruct (last_writer "1yrf.pdb" "1yrf_a.pdb" (variants raw)) as [k'|] eqn:Hk'.
    - apply last_writer_Some in Hk' as [[Hk' _]%elem_of_variants Hp].
      apply out_path_1yrf in Hp. by rewrite (Honly k' Hk' Hp).
    - rewrite last_writer_None in Hk'. destruct (Hk' k).
      + by apply elem_of_variants.
      + by apply out_path_1yrf. }
  unfold open_read. by rewrite Hfile.
Qed.

Lemma load_structure_reads_variant_witness :
  let w := World (<["1yrf_a.pdb" := "stale"]> (files (Samples.disk Samples.two_variants))) [] in
  files w !! "1yrf.pdb" = Some Samples.two_variants ∧
  (load_structure w).1 = inr (join (expected_records "A" Samples.two_variants)).
Proof.
  split; [by vm_compute|].
  apply load_structure_reads_variant; [by vm_compute|by vm_compute| |done|].
  - apply list_elem_of_lookup. exists 1. by vm_compute.
  - intros k' Hk'. vm_compute in Hk'.
    repeat (apply elem_of_cons in Hk' as [->|Hk']; [by vm_compute|]).
    by apply elem_of_nil in Hk'.
Defined.

(** X7.  When the splitter returns normally but no marker of the input has
    the lower-case form [a], [1yrf_a.pdb] is not written: the cell loads
    whatever that file held before the call, and raises FileNotFoundError
    when there was none. *)
Theorem load_structure_without_variant raw w :
  files w !! "1yrf.pdb" = Some raw →
  (split_pdb "1yrf.pdb" w).1 = inr tt →
  (∀ k, k ∈ markers raw → Py.lower k ≠ "a"%char) →
  (load_structure w).1 =
    match files w !! "1yrf_a.pdb" with
    | Some old => inr old
    | None => inl FileNotFoundError
    end.
Proof.
  intros Hfn Hok Hnone. rewrite load_structure_unfold, Hok.
  assert (Hfile : files (split_pdb "1yrf.pdb" w).2 !! "1yrf_a.pdb" =
                  files w !! "1yrf_a.pdb").
  { rewrite (files_split_pdb _ _ _ _ Hfn).
    destruct (last_writer "1yrf.pdb" "1yrf_a.pdb" (emitted raw)) as [k|] eqn:Hk;
      [|done].
    apply last_writer_Some in Hk as [Hk Hp].
    apply elem_of_emitted in Hk as (Hk & _). apply out_path_1yrf in Hp.
    by destruct (Hnone k). }
  unfold open_read. rewrite Hfile. by destruct (files w !! "1yrf_a.pdb").
Qed.

Lemma load_structure_without_variant_witness :
  let w := Samples.disk Samples.plain in
  files w !! "1yrf.pdb" = Some Samples.plain ∧
  (load_structure w).1 = inl FileNotFoundError.
Proof.
  split; [by vm_compute|].
  apply (load_structure_without_variant Samples.plain (Samples.disk Samples.plain));
    [by vm_compute|by vm_compute|].
  intros k Hk. vm_compute in Hk.
  repeat (apply elem_of_cons in Hk as [->|Hk]; [by vm_compute|]).
  by apply elem_of_nil in Hk.
Defined.

End caller.

(** ** Line endings and the shape of lines *)

Section lines.

Implicit Types (s t l : string) (c : ascii).

Lemma occurs_app c s t : occurs c (s +:+ t) = occurs c s || occurs c t.
Proof.
  induction s as [|a s IH]; [done|].
  rewrite app_cons. simpl. by rewrite IH, orb_assoc.
Qed.

Lemma universal_newlines_id s :
  occurs Py.CR s = false → Py.universal_newlines s = s.
Proof.
  induction s as [|a s IH]; [done|]. simpl.
  intros [Ha Hs]%orb_false_elim. rewrite Ha. f_equal. by apply IH.
Qed.

Lemma universal_newlines_to_crlf s :
  occurs Py.CR s = false → Py.universal_newlines (to_crlf s) = s.
Proof.
  induction s as [|a s IH]; [done|]. simpl.
  intros [Ha Hs]%orb_false_elim.
  destruct (Ascii.eqb a Py.LF) eqn:Hlf.
  - apply Ascii.eqb_eq in Hlf as ->.
    change (Py.universal_newlines (String Py.CR (String Py.LF (to_crlf s))))
      with (String Py.LF (Py.universal_newlines (to_crlf s))).
    f_equal. by apply IH.
  - change (Py.universal_newlines (String a (to_crlf s)))
      with (if Ascii.eqb a Py.CR
            then match to_crlf s with
                 | String c' s'' =>
                     if Ascii.eqb c' Py.LF
                     then String Py.LF (Py.universal_newlines s'')
                     else String Py.LF (Py.universal_newlines (to_crlf s))
                 | "" => String Py.LF ""
                 end
            else String a (Py.universal_newlines (to_crlf s))).
    rewrite Ha. f_equal. by apply IH.
Qed.

(** X8.  A file with CR LF line endings is split exactly like the same file
    with LF line endings: the lines read are the same, and so are the
    result and every event. *)
Theorem crlf_input_same_output fn s w1 w2 :
  occurs Py.CR s = false →
  files w1 !! fn = Some (to_crlf s) →
  files w2 !! fn = Some s →
  Py.readlines (to_crlf s) = Py.readlines s ∧
  (split_pdb fn w1).1 = (split_pdb fn w2).1 ∧
  new_events w1 (split_pdb fn w1).2 = new_events w2 (split_pdb fn w2).2.
Proof.
  intros Hs H1 H2.
  assert (Hlines : Py.readlines (to_crlf s) = Py.readlines s).
  { unfold Py.readlines.
    by rewrite universal_newlines_to_crlf, universal_newlines_id. }
  assert (Hatoms : atom_lines (to_crlf s) = atom_lines s)
    by (unfold atom_lines; by rewrite Hlines).
  destruct (summary_atom_lines _ _ Hatoms) as (Hres & Hem & Hexp).
  split_and!; [done| |].
  - by rewrite (split_pdb_result _ _ _ H1), (split_pdb_result _ _ _ H2).
  - rewrite (split_pdb_new_events _ _ _ H1), (split_pdb_new_events _ _ _ H2).
    rewrite Hem. f_equal. apply list_bind_ext; [|done].
    intros k. unfold variant_events. by rewrite Hexp.
Qed.

Lemma crlf_input_same_output_witness :
  let s := Samples.two_variants in
  occurs Py.CR s = false ∧
  Py.readlines (to_crlf s) = Py.readlines s ∧
  (split_pdb "1yrf.pdb" (Samples.disk (to_crlf s))).1 =
    (split_pdb "1yrf.pdb" (Samples.disk s)).1.
Proof.
  pose proof (crlf_input_same_output "1yrf.pdb" Samples.two_variants
                (Samples.disk (to_crlf Samples.two_variants))
                (Samples.disk Samples.two_variants)) as H.
  split; [by vm_compute|].
  destruct H as (H1 & H2 & _); by vm_compute.
Defined.

Lemma get_app_length s c t : String.get (String.length s) (s +:+ String c t) = Some c.
Proof. induction s as [|a s IH]; [done|]. by rewrite app_cons. Qed.

Lemma from_app_length s c t : Py.from (S (String.length s)) (s +:+ String c t) = t.
Proof. induction s as [|a s IH]; [done|]. by rewrite app_cons. Qed.

Lemma get_app_Some i s t c :
  String.get i s = Some c → String.get i (s +:+ t) = Some c.
Proof.
  revert i. induction s as [|a s IH]; intros [|i]; try done.
  rewrite app_cons. simpl. apply IH.
Qed.

Lemma is_atom_app l t : is_atom l → is_atom (l +:+ t).
Proof.
  unfold is_atom, Py.startswith. rewrite !prefix_get. intros H i Hi.
  specialize (H i Hi).
  assert (Hsome : is_Some (String.get i "ATOM")) by (by apply get_is_Some).
  destruct Hsome as [c Hc]. rewrite Hc in H |- *. by apply get_app_Some.
Qed.

(** X9.  An ATOM line with exactly 16 characters before its line end has the
    line end itself in column 16: LF is taken as its marker, which is not
    the default one, and the record is kept without its line end.  In a
    call that returns normally a file is then written for the marker LF. *)
Theorem line_end_taken_as_marker fn raw w (body : string) :
  files w !! fn = Some raw →
  (split_pdb fn w).1 = inr tt →
  body +:+ Py.chr Py.LF ∈ Py.readlines raw →
  is_atom body → String.length body = pos →
  marker (body +:+ Py.chr Py.LF) = Some Py.LF ∧
  blank_marker (body +:+ Py.chr Py.LF) = body +:+ " " ∧
  out_path fn Py.LF ∈ opened_for_writing (new_events w (split_pdb fn w).2) ∧
  body +:+ " " ∈ expected_records Py.LF raw.
Proof.
  intros Hfn Hok Hin Hatom Hlen.
  assert (Hm : marker (body +:+ Py.chr Py.LF) = Some Py.LF).
  { unfold marker. rewrite <-Hlen. apply get_app_length. }
  assert (Hb : blank_marker (body +:+ Py.chr Py.LF) = body +:+ " ").
  { unfold blank_marker. rewrite <-Hlen, upto_app_length.
    replace (String.length body + 1) with (S (String.length body)) by lia.
    unfold Py.chr. by rewrite from_app_length. }
  assert (Hline : body +:+ Py.chr Py.LF ∈ atom_lines raw).
  { apply list_elem_of_filter. split; [by apply is_atom_app|done]. }
  rewrite (split_pdb_result _ _ _ Hfn) in Hok.
  rewrite (opened_split_pdb _ _ _ Hfn), (result_ok_emitted _ Hok).
  split_and!; try done.
  - apply list_elem_of_fmap. exists Py.LF. split; [done|].
    apply elem_of_variants. split; [|done].
    apply list_elem_of_omap. eauto.
  - rewrite <-Hb. apply list_elem_of_fmap. eexists. split; [done|].
    apply list_elem_of_filter. split; [by right|done].
Qed.

Lemma line_end_taken_as_marker_witness :
  let raw := "ATOM            " +:+ Samples.eol +:+ "ATOM             x" in
  let w := Samples.disk raw in
  files w !! "1yrf.pdb" = Some raw ∧
  (split_pdb "1yrf.pdb" w).1 = inr tt ∧
  marker ("ATOM            " +:+ Py.chr Py.LF) = Some Py.LF ∧
  blank_marker ("ATOM            " +:+ Py.chr Py.LF) = "ATOM            " +:+ " ".
Proof.
  pose proof (line_end_taken_as_marker "1yrf.pdb"
    ("ATOM            " +:+ Samples.eol +:+ "ATOM             x")
    (Samples.disk ("ATOM            " +:+ Samples.eol +:+ "ATOM             x"))
    "ATOM            ") as H.
  split; [by vm_compute|]. split; [by vm_compute|].
  destruct H as (H1 & H2 & _); try by vm_compute.
  apply list_elem_of_lookup. exists 0. by vm_compute.
Defined.

End lines.

(** ** Outputs read back *)

Section reread.

Implicit Types (s t l : string) (ls : list string) (c : ascii).

Lemma universal_newlines_cons a s :
  Py.universal_newlines (String a s) =
    if Ascii.eqb a Py.CR then
      match s with
      | String c' s'' =>
          if Ascii.eqb c' Py.LF then String Py.LF (Py.universal_newlines s'')
          else String Py.LF (Py.universal_newlines s)
      | "" => String Py.LF ""
      end
    else String a (Py.universal_newlines s).
Proof. reflexivity. Qed.

Lemma occurs_cons c a s : occurs c (String a s) = Ascii.eqb a c || occurs c s.
Proof. reflexivity. Qed.

Lemma universal_newlines_no_cr s : occurs Py.CR (Py.universal_newlines s) = false.
Proof.
  assert (H : ∀ n s, String.length s ≤ n →
                     occurs Py.CR (Py.universal_newlines s) = false).
  { clear s. induction n as [|n IH]; intros [|a s] Hn; try done.
    { simpl in Hn. lia. }
    rewrite universal_newlines_cons. simpl in Hn.
    destruct (Ascii.eqb a Py.CR) eqn:Ha.
    - destruct s as [|b s]; [done|]. simpl in Hn.
      destruct (Ascii.eqb b Py.LF); rewrite occurs_cons;
        (apply orb_false_intro; [done|]); apply IH; simpl; lia.
    - rewrite occurs_cons, Ha. apply IH. lia. }
  by apply (H (String.length s)).
Qed.

Lemma splitlines_shape s :
  occurs Py.CR s = false →
  Forall (λ l, one_line l = true ∧ occurs Py.CR l = false) (Py.splitlines s).
Proof.
  induction s as [|a s IH]; simpl; [constructor|].
  intros [Ha Hs]%orb_false_elim. specialize (IH Hs).
  destruct (Ascii.eqb a Py.LF) eqn:Hlf.
  - constructor; [|done]. simpl. by rewrite Hlf, Ha.
  - destruct (Py.splitlines s) as [|l ls].
    + repeat constructor; simpl; by rewrite ?Hlf, ?Ha.
    + apply Forall_cons in IH as [[Hl1 Hl2] IH].
      constructor; [|done]. simpl. by rewrite Hlf, Ha.
Qed.

Lemma replace_one_line n s m :
  String.get n s = Some m → one_line s = true →
  one_line (Py.upto n s +:+ " " +:+ Py.from (S n) s) = true.
Proof.
  revert s. induction n as [|n IH]; intros [|a s] Hm Hs; try done.
  - change (one_line (String " " s) = true). simpl in *.
    destruct (Ascii.eqb a Py.LF); [by destruct s|done].
  - change (one_line (String a (Py.upto n s +:+ " " +:+ Py.from (S n) s)) = true).
    simpl in *. destruct (Ascii.eqb a Py.LF).
    + by destruct s.
    + by apply IH.
Qed.

Lemma replace_no_cr n s m :
  String.get n s = Some m → occurs Py.CR s = false →
  occurs Py.CR (Py.upto n s +:+ " " +:+ Py.from (S n) s) = false.
Proof.
  revert s. induction n as [|n IH]; intros [|a s] Hm Hs; try done.
  - change (occurs Py.CR (String " " s) = false). simpl in *.
    by apply orb_false_elim in Hs as [_ ->].
  - change (occurs Py.CR (String a (Py.upto n s +:+ " " +:+ Py.from (S n) s)) = false).
    simpl in *. apply orb_false_elim in Hs as [-> Hs]. by apply IH.
Qed.

Lemma ends_lf_cons a s : s ≠ "" → ends_lf (String a s) = ends_lf s.
Proof. by destruct s. Qed.

Lemma splitlines_app l rest :
  one_line l = true → l ≠ "" →
  Py.splitlines (l +:+ rest) =
    if ends_lf l then l :: Py.splitlines rest
    else match Py.splitlines rest with
         | [] => [l]
         | x :: xs => (l +:+ x) :: xs
         end.
Proof.
  induction l as [|a l IH]; [done|]. intros Hl _.
  rewrite app_cons. simpl in Hl. simpl Py.splitlines.
  destruct (Ascii.eqb a Py.LF) eqn:Ha.
  - destruct l; [|done]. rewrite app_nil_l. simpl. by rewrite Ha.
  - destruct (decide (l = "")) as [->|Hne].
    + rewrite app_nil_l. simpl. rewrite Ha. by destruct (Py.splitlines rest).
    + rewrite ends_lf_cons by done. rewrite IH by done.
      destruct (ends_lf l); [done|]. by destruct (Py.splitlines rest).
Qed.

Lemma splitlines_join ls :
  Forall (λ l, (is_atom l ∧ marker l = Some " "%char) ∧ one_line l = true) ls →
  Forall (λ l, is_atom l ∧ marker l = Some " "%char) (Py.splitlines (join ls)).
Proof.
  induction 1 as [|l ls [[Hatom Hm] Hl] _ IH]; [constructor|].
  change (join (l :: ls)) with (l +:+ join ls).
  assert (Hne : l ≠ "") by (by intros ->).
  rewrite (splitlines_app _ _ Hl Hne). destruct (ends_lf l).
  - by constructor.
  - destruct (Py.splitlines (join ls)) as [|x xs]; [by repeat constructor|].
    apply Forall_cons in IH as [_ IH]. constructor; [|done].
    split; [by apply is_atom_app|]. by apply get_app_Some.
Qed.

Lemma no_cr_join ls :
  Forall (λ l, occurs Py.CR l = false) ls → occurs Py.CR (join ls) = false.
Proof.
  induction 1 as [|l ls Hl _ IH]; [done|].
  change (join (l :: ls)) with (l +:+ join ls). by rewrite occurs_app, Hl, IH.
Qed.

Lemma readlines_shape raw :
  Forall (λ l, one_line l = true ∧ occurs Py.CR l = false) (Py.readlines raw).
Proof. apply splitlines_shape, universal_newlines_no_cr. Qed.

(** X10.  Every file the splitter writes is free of alternate locations:
    read back, each of its lines starts with ATOM and has a blank in column
    16, so splitting an output again returns normally, writes nothing and
    leaves every file as it is. *)
Theorem split_pdb_output_is_clean fn raw w p :
  files w !! fn = Some raw →
  p ∈ opened_for_writing (new_events w (split_pdb fn w).2) →
  (∃ out, files (split_pdb fn w).2 !! p = Some out ∧
          Forall (λ l, is_atom l ∧ marker l = Some " "%char) (Py.readlines out)) ∧
  (split_pdb p (split_pdb fn w).2).1 = inr tt ∧
  opened_for_writing
    (new_events (split_pdb fn w).2 (split_pdb p (split_pdb fn w).2).2) = [] ∧
  files (split_pdb p (split_pdb fn w).2).2 = files (split_pdb fn w).2.
Proof.
  intros Hfn Hp. rewrite (opened_split_pdb _ _ _ Hfn) in Hp.
  apply list_elem_of_fmap in Hp as (k0 & -> & Hk0).
  pose proof (files_split_pdb fn w raw (out_path fn k0) Hfn) as Hfile.
  destruct (last_writer fn (out_path fn k0) (emitted raw)) as [k|] eqn:Hk.
  2:{ rewrite last_writer_None in Hk. by destruct (Hk k0). }
  apply last_writer_Some in Hk as [Hk _].
  apply elem_of_emitted in Hk as (_ & _ & Hwf & _).
  set (out := join (expected_records k raw)) in *.
  assert (Hrecs : Forall (λ l, ((is_atom l ∧ marker l = Some " "%char) ∧
                                one_line l = true) ∧ occurs Py.CR l = false)
                    (expected_records k raw)).
  { unfold expected_records. apply Forall_fmap, Forall_forall.
    intros line [_ Hline]%list_elem_of_filter. simpl.
    pose proof Hline as [Hatom Hread]%list_elem_of_filter.
    eapply Forall_forall in Hwf as [m Hm]; [|exact Hline].
    pose proof (readlines_shape raw) as Hshape.
    eapply Forall_forall in Hshape as [H1 H2]; [|exact Hread].
    split_and!.
    - by eapply blank_marker_is_atom.
    - unfold marker. rewrite (blank_marker_get _ _ _ Hm). by rewrite decide_True.
    - by apply (replace_one_line pos line m).
    - by apply (replace_no_cr pos line m). }
  apply Forall_and in Hrecs as [Hrecs Hcr].
  assert (Hlines : Forall (λ l, is_atom l ∧ marker l = Some " "%char)
                     (Py.readlines out)).
  { unfold Py.readlines. rewrite universal_newlines_id by (by apply no_cr_join).
    by apply splitlines_join. }
  assert (Hall : ∀ line m, line ∈ atom_lines out → marker line = Some m →
                           m = " "%char).
  { intros line m [_ Hline]%list_elem_of_filter Hm.
    eapply Forall_forall in Hlines as [_ Hm']; [|exact Hline]. congruence. }
  assert (Hwf' : well_formed out).
  { apply Forall_forall. intros line [_ Hline]%list_elem_of_filter.
    eapply Forall_forall in Hlines as [_ Hm']; [|exact Hline]. by rewrite Hm'. }
  assert (Hv : variants out = []) by (by apply emitted_nil_no_variant).
  assert (He : emitted out = []) by (unfold emitted; rewrite Hv; by case_decide).
  split; [by eauto|].
  rewrite (split_pdb_result _ _ _ Hfile), (opened_split_pdb _ _ _ Hfile),
    (split_pdb_files _ _ _ Hfile), He.
  split_and!; try done.
  unfold result_of. rewrite decide_True by done. by rewrite decide_True by auto.
Qed.

Lemma split_pdb_output_is_clean_witness :
  let w := Samples.disk Samples.two_variants in
  files w !! "1yrf.pdb" = Some Samples.two_variants ∧
  "1yrf_a.pdb" ∈ opened_for_writing (new_events w (split_pdb "1yrf.pdb" w).2) ∧
  (split_pdb "1yrf_a.pdb" (split_pdb "1yrf.pdb" w).2).1 = inr tt ∧
  files (split_pdb "1yrf_a.pdb" (split_pdb "1yrf.pdb" w).2).2 =
    files (split_pdb "1yrf.pdb" w).2.
Proof.
  assert (Hp : "1yrf_a.pdb" ∈ opened_for_writing
                 (new_events (Samples.disk Samples.two_variants)
                    (split_pdb "1yrf.pdb" (Samples.disk Samples.two_variants)).2)).
  { apply list_elem_of_lookup. exists 0. by vm_compute. }
  pose proof (split_pdb_output_is_clean "1yrf.pdb" Samples.two_variants
                (Samples.disk Samples.two_variants) "1yrf_a.pdb") as H.
  split; [by vm_compute|]. split; [exact Hp|].
  destruct H as (_ & H1 & _ & H2); [by vm_compute|exact Hp|]. by split.
Defined.

End reread.

Section never.

Implicit Types (fn raw : string) (w : world).

(** X11.  The default group never gets a file of its own: the path the
    blank marker would name is not opened for writing, and every output
    holds at least one record of its own marker besides the default ones. *)
Theorem default_group_has_no_file fn raw w :
  files w !! fn = Some raw →
  (out_path fn " " ∉ opened_for_writing (new_events w (split_pdb fn w).2)) ∧
  (∀ p recs, written_records (new_events w (split_pdb fn w).2) !! p = Some recs →
             length (default_records raw) < length recs).
Proof.
  intros Hfn. split.
  - rewrite (opened_split_pdb _ _ _ Hfn).
    intros (k & Hp & Hk)%list_elem_of_fmap.
    apply elem_of_emitted in Hk as (_ & Hne & _).
    symmetry in Hp. apply out_path_eq in Hp.
    apply Hne, lower_blank. by rewrite Hp.
  - intros p recs. rewrite (written_records_split_pdb _ _ _ _ Hfn).
    destruct (last_writer fn p (emitted raw)) as [k|] eqn:Hk; [|done].
    intros [= <-]. apply last_writer_Some in Hk as [Hk _].
    apply elem_of_emitted in Hk as (Hk & Hne & _).
    apply list_elem_of_omap in Hk as (line & Hline & Hm).
    unfold expected_records, default_records. rewrite !length_fmap.
    rewrite (list_filter_iff (in_variant k)
               (λ l, marker l = Some k ∨ marker l = Some " "%char))
      by (unfold in_variant; tauto).
    rewrite <-(Permutation_length
                 (filter_or_Permutation (λ l, marker l = Some " "%char)
                    (λ l, marker l = Some k) (atom_lines raw)
                    ltac:(intros l H1 H2; congruence))).
    rewrite length_app.
    assert (Hin : line ∈ filter (λ l, marker l = Some k) (atom_lines raw))
      by (by apply list_elem_of_filter).
    destruct (filter (λ l, marker l = Some k) (atom_lines raw));
      [by apply elem_of_nil in Hin|simpl; lia].
Qed.

Lemma default_group_has_no_file_witness :
  let w := Samples.disk Samples.two_variants in
  files w !! "1yrf.pdb" = Some Samples.two_variants ∧
  (out_path "1yrf.pdb" " " ∉
     opened_for_writing (new_events w (split_pdb "1yrf.pdb" w).2)).
Proof.
  pose proof (default_group_has_no_file "1yrf.pdb" Samples.two_variants
                (Samples.disk Samples.two_variants)) as H.
  split; [by vm_compute|]. destruct H as (H & _); by vm_compute.
Defined.

End never.

Section reading.

Lemma join_splitlines (s : string) : join (Py.splitlines s) = s.
Proof.
  induction s as [|a s IH]; [done|]. simpl.
  destruct (Ascii.eqb a Py.LF).
  - change (Py.chr a +:+ join (Py.splitlines s) = String a s). by rewrite IH.
  - destruct (Py.splitlines s) as [|l ls].
    + simpl in IH. by rewrite <-IH.
    + change (String a (join (l :: ls)) = String a s). by rewrite IH.
Qed.

Lemma splitlines_nonempty (s : string) : Forall (λ l, l ≠ "") (Py.splitlines s).
Proof.
  induction s as [|a s IH]; simpl; [constructor|].
  destruct (Ascii.eqb a Py.LF); [by constructor|].
  destruct (Py.splitlines s) as [|l ls]; [by repeat constructor|].
  apply Forall_cons in IH as [_ IH]. by constructor.
Qed.

(** X12.  Reading the input line by line loses nothing: the lines, put end
    to end, are the text of the file with its line endings turned into LF;
    no line is empty, none holds a CR, and an LF can only be the last
    character of a line. *)
Theorem readlines_keeps_text (raw : string) :
  join (Py.readlines raw) = Py.universal_newlines raw ∧
  Forall (λ l, l ≠ "" ∧ one_line l = true ∧ occurs Py.CR l = false)
         (Py.readlines raw).
Proof.
  split; [apply join_splitlines|].
  apply Forall_and. split; [apply splitlines_nonempty|].
  apply readlines_shape.
Qed.

End reading.
